(** * gmft.table_detection: regions, rotation-aware text positions,
      line reconstruction, serialization and detector orchestration.

    A shallow embedding of [gmft/table_detection.py].

    Numbers.  Python's [int] and [float] coordinates are modelled by the
    exact rationals [Qc] (canonical fractions, Leibniz equality): the
    arithmetic of the source ([-], [*], [abs], comparisons, the median) is
    exact here.  Properties are stated so that they do not lean on that
    exactness: both sides perform the same operations, or only the order
    of numbers matters.  Where binary64 rounding changes what the program
    returns, the module [B64] below embeds the same code over primitive
    binary64 floats and the difference is proved there.  Integer tags
    (labels, page numbers) are [Z].

    Effects.  Methods that write the lazily filled caches of a table
    ([_word_height], [_captions]) return the new table next to their
    outcome; raised exceptions are the [Raise] outcome. *)

From Stdlib Require Import Ascii String QArith Qcanon Qcabs Qround Lqa.
From Stdlib Require PrimFloat.
From stdpp Require Import base option list sorting strings gmap.

Local Open Scope Qc_scope.
Local Open Scope list_scope.

(** ** Numbers and outcomes *)

Abbreviation num := Qc (only parsing).

(** The decimal literal [n/d]. *)
Definition lit (n : Z) (d : positive) : num := Q2Qc (n # d).

Inductive exn : Type :=
  | ValueError (msg : string)
  | KeyError (key : string)
  | TypeError
  | IndexError
  | AssertionError.

Inductive outcome (A : Type) : Type :=
  | Return (a : A)
  | Raise (e : exn).
Arguments Return {A} a.
Arguments Raise {A} e.

(** Sequencing: an exception of the first computation ends the whole. *)
#[global] Instance outcome_ret : MRet outcome := λ A a, Return a.
#[global] Instance outcome_bind : MBind outcome := λ A B k m,
  match m with
  | Return a => k a
  | Raise e => Raise e
  end.

(** ** Rect (gmft.common) *)

Abbreviation bbox_t := (num * num * num * num)%type.

(** Modelled from the spec: the class [Rect] of the sibling module
    [gmft.common].  A rectangle has the attributes xmin, ymin, xmax,
    ymax; [Rect(bbox)] stores the four numbers and [rect.bbox] gives them
    back. *)
Record Rect : Type := mkRect { xmin : num; ymin : num; xmax : num; ymax : num }.

(** Modelled from the spec: the constructor call [Rect(bbox)]. *)
Definition Rect_of_bbox (bbox : bbox_t) : Rect :=
  let '(x0, y0, x1, y1) := bbox in mkRect x0 y0 x1 y1.

(** Modelled from the spec: the attribute [rect.bbox]. *)
Definition Rect_bbox (r : Rect) : bbox_t := (xmin r, ymin r, xmax r, ymax r).

(** Modelled from the spec: derived [width = xmax − xmin]. *)
Definition width (r : Rect) : num := xmax r - xmin r.

(** Modelled from the spec: derived [height = ymax − ymin]. *)
Definition height (r : Rect) : num := ymax r - ymin r.

(** Modelled from the spec: [Rect.is_intersecting], the rectangle-overlap
    test with boundary-inclusive semantics (touching edges intersect). *)
Definition is_intersecting (a b : Rect) : bool :=
  bool_decide (xmin a ≤ xmax b) && bool_decide (xmin b ≤ xmax a) &&
  bool_decide (ymin a ≤ ymax b) && bool_decide (ymin b ≤ ymax a).

(** ** Words and pages *)

(** A word is the tuple [(x0, y0, x1, y1, "string")]. *)
Abbreviation word := (num * num * num * num * string)%type.

Definition word_box (w : word) : bbox_t := fst w.
Definition word_text (w : word) : string := snd w.
Definition word_bottom (w : word) : num := snd (fst w).

(** Modelled from the spec: the page collaborator [BasePage] of
    [gmft.pdf_bindings.common], reduced to what this module reads of it:
    the file name, the page number and the words of the page in reading
    order. *)
Record BasePage : Type := mkPage {
  get_filename : string;
  page_number : Z;
  get_positions_and_text : list word
}.

(** ** position_words *)

Definition newline : string := String "010"%char EmptyString.

(** One pass of the loop body: [(prev_bottom, lines)] is the loop state. *)
Definition position_words_step (y_gap : num) (st : num * string) (w : word)
  : num * string :=
  let '(prev_bottom, lines) := st in
  let '(x0, y0, x1, y1, text) := w in
  if bool_decide (y_gap ≤ Qcabs (y1 - prev_bottom))
  then (y1, lines +:+ newline +:+ text)
  else (y1, lines +:+ " " +:+ text).

Definition position_words (words : list word) (y_gap : num) : string :=
  match words with
  | [] => ""
  | first :: rest =>
      let '(prev_left, prev_top, prev_right, prev_bottom, lines) := first in
      snd (foldl (position_words_step y_gap) (prev_bottom, lines) rest)
  end.

(** The default of the parameter [y_gap]. *)
Definition y_gap_default : num := lit 3 1.

(** ** Tables *)

(** A Python float that may be the not-a-number sentinel [np.nan]. *)
Inductive float : Type :=
  | nan
  | fl (q : num).

(** The instance attributes set by [CroppedTable.__init__].  The raster
    image caches ([_img], [_img_dpi], [_img_padding], [_img_margin]) are
    left out: rasterisation belongs to the page collaborator. *)
Record CroppedTable : Type := mkCroppedTable {
  page : BasePage;
  rect : Rect;
  confidence_score : num;
  label : Z;
  _word_height : option float;
  _captions : option (list string)
}.

(** [RotatedCroppedTable(CroppedTable)] adds the attribute [angle]. *)
Record RotatedCroppedTable : Type := mkRotatedCroppedTable {
  super : CroppedTable;
  angle : num
}.

(** An object of either class; method calls dispatch on the constructor. *)
Inductive table : Type :=
  | Plain (t : CroppedTable)
  | Rotated (t : RotatedCroppedTable).

Definition attrs (self : table) : CroppedTable :=
  match self with
  | Plain t => t
  | Rotated t => super t
  end.

Definition with_attrs (self : table) (t : CroppedTable) : table :=
  match self with
  | Plain _ => Plain t
  | Rotated r => Rotated (mkRotatedCroppedTable t (angle r))
  end.

(** The argument [bbox: tuple | Rect] of the constructor. *)
Inductive bbox_arg : Type :=
  | OfTuple (b : bbox_t)
  | OfRect (r : Rect).

Definition CroppedTable_init (page : BasePage) (bbox : bbox_arg)
    (confidence_score : num) (label : Z) : CroppedTable :=
  {| page := page;
     rect := match bbox with OfRect r => r | OfTuple b => Rect_of_bbox b end;
     confidence_score := confidence_score;
     label := label;
     _word_height := None;
     _captions := None |}.

Definition supported_angles : list num := [lit 0 1; lit 90 1; lit 180 1; lit 270 1].

Definition RotatedCroppedTable_init (page : BasePage) (bbox : bbox_arg)
    (confidence_score : num) (angle : num) (label : Z)
  : outcome RotatedCroppedTable :=
  let self := CroppedTable_init page bbox confidence_score label in
  if bool_decide (angle ∉ supported_angles)
  then Raise (ValueError "Only 0, 90, 180, 270 are supported.")
  else Return (mkRotatedCroppedTable self angle).

(** ** text_positions *)

Definition remove_offset (r : Rect) (w : word) : word :=
  let '(w0, w1, w2, w3, w4) := w in
  (w0 - xmin r, w1 - ymin r, w2 - xmin r, w3 - ymin r, w4).

Definition CroppedTable_text_positions (self : CroppedTable)
    (remove_table_offset outside : bool) : list word :=
  w ← get_positions_and_text (page self);
  if xorb (is_intersecting (Rect_of_bbox (word_box w)) (rect self)) outside
  then (if remove_table_offset then [remove_offset (rect self) w] else [w])
  else [].

(** The three loop bodies of [RotatedCroppedTable.text_positions]. *)
Definition remap_90 (r : Rect) (w : word) : word :=
  let '(x0, y0, x1, y1, text) := w in
  (height r - y1, x0, height r - y0, x1, text).

Definition remap_180 (r : Rect) (w : word) : word :=
  let '(x0, y0, x1, y1, text) := w in
  (width r - x1, height r - y1, width r - x0, height r - y0, text).

Definition remap_270 (r : Rect) (w : word) : word :=
  let '(x0, y0, x1, y1, text) := w in
  (y0, width r - x1, y1, width r - x0, text).

Definition RotatedCroppedTable_text_positions (self : RotatedCroppedTable)
    (remove_table_offset outside : bool) : list word :=
  let r := rect (super self) in
  if bool_decide (angle self = lit 0 1) || negb remove_table_offset then
    CroppedTable_text_positions (super self) remove_table_offset outside
  else if bool_decide (angle self = lit 90 1) then
    remap_90 r <$> CroppedTable_text_positions (super self) true outside
  else if bool_decide (angle self = lit 180 1) then
    remap_180 r <$> CroppedTable_text_positions (super self) true outside
  else if bool_decide (angle self = lit 270 1) then
    remap_270 r <$> CroppedTable_text_positions (super self) true outside
  else [].

Definition text_positions (self : table) (remove_table_offset outside : bool)
  : list word :=
  match self with
  | Plain t => CroppedTable_text_positions t remove_table_offset outside
  | Rotated t => RotatedCroppedTable_text_positions t remove_table_offset outside
  end.

Definition text (self : table) : string :=
  position_words (text_positions self false false) y_gap_default.

(** ** predicted_word_height *)

(** [numpy.median] on a non-empty list: the middle element of the sorted
    values, or the mean of the two middle ones when their number is even
    (numpy is an external library; this follows its documented result). *)
Definition median (l : list num) : num :=
  let s := merge_sort Qcle l in
  let n := length s in
  if Nat.even n
  then (nth (n / 2 - 1)%nat s 0 + nth (n / 2)%nat s 0) / lit 2 1
  else nth (n / 2)%nat s 0.

(** The loop that fills [word_heights]. *)
Definition collect_word_heights (smallest_supported_text_height : num)
    (words : list word) : list num :=
  foldl (λ word_heights w,
           let '(xmin, ymin, xmax, ymax, text) := w in
           let height := ymax - ymin in
           if bool_decide (smallest_supported_text_height < height)
           then word_heights ++ [ymax - ymin]
           else word_heights)
        [] words.

Definition float_ne_0 (x : float) : bool :=
  match x with
  | nan => true
  | fl q => bool_decide (q ≠ 0)
  end.

Definition set_word_height (self : table) (h : float) : table :=
  let t := attrs self in
  with_attrs self
    {| page := page t; rect := rect t; confidence_score := confidence_score t;
       label := label t; _word_height := Some h; _captions := _captions t |}.

Definition smallest_supported_text_height_default : num := lit 1 10.

(** The method returns its outcome and the table as the call leaves it:
    the cache is written before the second assertion is evaluated. *)
Definition predicted_word_height (self : table)
    (smallest_supported_text_height : num) : outcome float * table :=
  match _word_height (attrs self) with
  | Some h =>
      if float_ne_0 h then (Return h, self) else (Raise AssertionError, self)
  | None =>
      let word_heights :=
        collect_word_heights smallest_supported_text_height
          (text_positions self true false) in
      match word_heights with
      | _ :: _ =>
          let h := lit 95 100 * median word_heights in
          let self := set_word_height self (fl h) in
          if bool_decide (0 < h) then (Return (fl h), self)
          else (Raise AssertionError, self)
      | [] =>
          let self := set_word_height self nan in
          (Return nan, self)
      end
  end.

(** ** captions *)

Definition set_captions (self : table) (c : list string) : table :=
  let t := attrs self in
  with_attrs self
    {| page := page t; rect := rect t; confidence_score := confidence_score t;
       label := label t; _word_height := _word_height t; _captions := Some c |}.

(** Truth value of the attribute [_captions]: [None] and an empty
    sequence are false. *)
Definition captions_truthy (c : option (list string)) : bool :=
  match c with
  | Some (_ :: _) => true
  | _ => false
  end.

Definition line_spacing_default : num := lit 25 10.

Section captions.
(** The caption finder [gmft.table_captioning._find_captions] is an
    external collaborator; the types of its [margin] and of the extra
    keyword arguments are its own. *)
Variables Margin Kwargs : Type.
Variable _find_captions :
  table → option Margin → num → Kwargs → list string.

(** One call of the collaborator, with its arguments. *)
Record finder_call : Type := mkCall {
  call_self : table;
  call_margin : option Margin;
  call_line_spacing : num;
  call_kwargs : Kwargs
}.

(** The result, the table after the call, and the collaborator calls
    made on the way. *)
Definition captions (self : table) (margin : option Margin)
    (line_spacing : num) (kwargs : Kwargs)
  : list string * table * list finder_call :=
  if captions_truthy (_captions (attrs self)) &&
     (match margin with None => true | Some _ => false end ||
      bool_decide (line_spacing = lit 25 10))
  then (default [] (_captions (attrs self)), self, [])
  else
    let c := _find_captions self margin line_spacing kwargs in
    (c, set_captions self c, [mkCall self margin line_spacing kwargs]).
End captions.

Arguments mkCall {Margin Kwargs}.
Arguments captions {Margin Kwargs}.

(** ** to_dict and from_dict *)

(** Values of the serialized record.  The attributes of a table are typed
    as the source annotates them; an entry of another type has no
    counterpart in a table of the model and is reported as [TypeError]. *)
Inductive value : Type :=
  | VStr (s : string)
  | VInt (z : Z)
  | VNum (q : num)
  | VBBox (b : bbox_t)
  | VStrs (l : list string).

Definition CroppedTable_to_dict (self : CroppedTable) : gmap string value :=
  <["label" := VInt (label self)]>
  (<["confidence_score" := VNum (confidence_score self)]>
  (<["bbox" := VBBox (Rect_bbox (rect self))]>
  (<["page_no" := VInt (page_number (page self))]>
  (<["filename" := VStr (get_filename (page self))]> ∅)))).

Definition RotatedCroppedTable_to_dict (self : RotatedCroppedTable)
  : gmap string value :=
  let d := CroppedTable_to_dict (super self) in
  <["angle" := VNum (angle self)]> d.

Definition to_dict (self : table) : gmap string value :=
  match self with
  | Plain t => CroppedTable_to_dict t
  | Rotated t => RotatedCroppedTable_to_dict t
  end.

(** [d[key]] *)
Definition getitem (d : gmap string value) (key : string) : outcome value :=
  match d !! key with
  | Some v => Return v
  | None => Raise (KeyError key)
  end.

Definition as_bbox (v : value) : outcome bbox_t :=
  match v with VBBox b => Return b | _ => Raise TypeError end.

Definition as_num (v : value) : outcome num :=
  match v with
  | VNum q => Return q
  | VInt z => Return (Qc_of_Z z)
  | _ => Raise TypeError
  end.

Definition as_int (v : value) : outcome Z :=
  match v with VInt z => Return z | _ => Raise TypeError end.

(** [d.get('captions', [])] *)
Definition get_captions (d : gmap string value) : outcome (list string) :=
  match d !! "captions" with
  | None => Return []
  | Some (VStrs l) => Return l
  | Some _ => Raise TypeError
  end.

Definition assign_captions (t : CroppedTable) (c : list string) : CroppedTable :=
  {| page := page t; rect := rect t; confidence_score := confidence_score t;
     label := label t; _word_height := _word_height t; _captions := Some c |}.

(** The body of [CroppedTable.from_dict] below its dispatch on ['angle']. *)
Definition CroppedTable_from_dict_plain (d : gmap string value) (page : BasePage)
  : outcome table :=
  vbbox ← getitem d "bbox";
  vscore ← getitem d "confidence_score";
  vlabel ← getitem d "label";
  bbox ← as_bbox vbbox;
  score ← as_num vscore;
  label ← as_int vlabel;
  let table := CroppedTable_init page (OfTuple bbox) score label in
  c ← get_captions d;
  mret (Plain (assign_captions table c)).

(** [RotatedCroppedTable.from_dict]; without ['angle'] it calls
    [CroppedTable.from_dict], which on such a record runs its own body. *)
Definition RotatedCroppedTable_from_dict (d : gmap string value) (page : BasePage)
  : outcome table :=
  if bool_decide (d !! "angle" = None) then CroppedTable_from_dict_plain d page
  else
    vbbox ← getitem d "bbox";
    vscore ← getitem d "confidence_score";
    vangle ← getitem d "angle";
    vlabel ← getitem d "label";
    bbox ← as_bbox vbbox;
    score ← as_num vscore;
    angle' ← as_num vangle;
    label ← as_int vlabel;
    table ← RotatedCroppedTable_init page (OfTuple bbox) score angle' label;
    c ← get_captions d;
    mret (Rotated (mkRotatedCroppedTable (assign_captions (super table) c)
                                         (angle table))).

Definition CroppedTable_from_dict (d : gmap string value) (page : BasePage)
  : outcome table :=
  if bool_decide (d !! "angle" ≠ None) then RotatedCroppedTable_from_dict d page
  else CroppedTable_from_dict_plain d page.

(** ** TableDetector.extract *)

(** What [post_process_object_detection] hands back: three parallel
    sequences. *)
Record detections : Type := mkDetections {
  boxes : list bbox_t;
  scores : list num;
  labels : list Z
}.

(** [l[i]] *)
Definition index {A} (l : list A) (i : nat) : outcome A :=
  match l !! i with
  | Some a => Return a
  | None => Raise IndexError
  end.

(** The loop of [extract] over the detections of one page; the model
    invocation that produces [results] is the detector collaborator's. *)
Definition extract (page : BasePage) (results : detections)
  : outcome (list table) :=
  mapM (λ i,
          bbox ← index (boxes results) i;
          confidence_score ← index (scores results) i;
          label ← index (labels results) i;
          if bool_decide (label = 1%Z) then
            t ← RotatedCroppedTable_init page (OfTuple bbox) confidence_score
                  (lit 90 1) label;
            mret (Rotated t)
          else
            mret (Plain (CroppedTable_init page (OfTuple bbox) confidence_score label)))
       (seq 0 (length (boxes results))).

(** ** image *)

(** [int(x)]: truncation toward zero. *)
Definition py_int (x : num) : Z :=
  if bool_decide (0 ≤ x) then Qfloor x else Qceiling x.

(** [max(a, b)]: the first argument unless the second is greater. *)
Definition py_max (a b : num) : num :=
  if bool_decide (a < b) then b else a.

(** The argument [str | tuple = None] of [padding] and [margin]: the
    string 'auto', [None], or four numbers (left, top, right, bottom). *)
Inductive sides_arg (A : Type) : Type :=
  | SidesAuto
  | SidesNone
  | Sides (s : A * A * A * A).
Arguments SidesAuto {A}.
Arguments SidesNone {A}.
Arguments Sides {A} s.

Section image.
(** Rasters belong to the collaborators: the page renders a rect at a
    resolution, [PIL.ImageOps.expand] adds a white border, and
    [img.rotate(angle, expand=True)] turns the raster. *)
Variable Image : Type.
Variable get_image : BasePage → num → Rect → Image.
Variable expand : Image → Z * Z * Z * Z → Image.
Variable rotate : Image → num → Image.

(** The attributes [_img], [_img_dpi], [_img_padding], [_img_margin] as
    a call of [image] leaves them. *)
Record image_cache : Type := mkImageCache {
  _img : Image;
  _img_dpi : num;
  _img_padding : option (Z * Z * Z * Z);
  _img_margin : option (num * num * num * num)
}.

Definition CroppedTable_image (self : CroppedTable) (dpi : option num)
    (padding : sides_arg Z) (margin : sides_arg num) : Image * image_cache :=
  let dpi := match dpi with None => lit 72 1 | Some dpi => dpi end in
  let padding :=
    match padding with
    | SidesAuto =>
        let width := width (rect self) * dpi / lit 72 1 in
        let height := height (rect self) * dpi / lit 72 1 in
        let pad := py_int (py_max width height * lit 1 10) in
        Some (pad, pad, pad, pad)
    | SidesNone => Some (0, 0, 0, 0)%Z
    | Sides p => Some p
    end in
  let rect := rect self in
  let margin :=
    match margin with
    | SidesAuto => Some (lit 30 1, lit 30 1, lit 30 1, lit 30 1)
    | SidesNone => None
    | Sides m => Some m
    end in
  let rect :=
    match margin with
    | Some (m0, m1, m2, m3) =>
        Rect_of_bbox (xmin rect - m0, ymin rect - m1, xmax rect + m2, ymax rect + m3)
    | None => rect
    end in
  let img := get_image (page self) dpi rect in
  let img :=
    match padding with
    | Some padding => expand img padding
    | None => img
    end in
  (img, mkImageCache img dpi padding margin).

(** [RotatedCroppedTable.image] forwards its extra keyword arguments to
    the base method, which accepts none. *)
Definition RotatedCroppedTable_image (self : RotatedCroppedTable)
    (dpi : option num) (padding : sides_arg Z) (margin : sides_arg num)
    (kwargs : list (string * value)) : outcome (Image * image_cache) :=
  match kwargs with
  | _ :: _ => Raise TypeError
  | [] =>
      let '(img, cache) := CroppedTable_image (super self) dpi padding margin in
      if bool_decide (angle self ≠ lit 0 1)
      then Return (rotate img (- angle self), cache)
      else Return (img, cache)
  end.
End image.

Arguments mkImageCache {Image}.
Arguments _img {Image}.
Arguments _img_dpi {Image}.
Arguments _img_padding {Image}.
Arguments _img_margin {Image}.
Arguments CroppedTable_image {Image}.
Arguments RotatedCroppedTable_image {Image}.

(** ** TableDetectorConfig *)

(** Values of configuration attributes. *)
Inductive attr : Type :=
  | AStr (s : string)
  | ABool (b : bool)
  | ANum (q : num)
  | ANone.

(** Reading an attribute gives its value or raises. *)
Inductive attr_outcome : Type :=
  | Attr (a : attr)
  | RaiseDeprecationWarning
  | RaiseAttributeError.

Section config.
(** [torch.cuda.is_available()], read once when the class is defined. *)
Variable cuda_is_available : bool.

(** The attributes of the class [TableDetectorConfig] itself. *)
Definition TableDetectorConfig_class : gmap string attr :=
  <["detector_base_threshold" := ANum (lit 9 10)]>
  (<["torch_device" := AStr (if cuda_is_available then "cuda" else "cpu")]>
  (<["warn_uninitialized_weights" := ABool false]>
  (<["no_timm" := ABool true]>
  (<["detector_path" := AStr "microsoft/table-transformer-detection"]>
  (<["image_processor_path" := AStr "microsoft/table-transformer-detection"]> ∅))))).

(** A configuration object is its instance dictionary [__dict__];
    [__init__] sets the attributes whose argument is not [None]. *)
Definition TableDetectorConfig_init
    (image_processor_path detector_path torch_device : attr) : gmap string attr :=
  let self : gmap string attr := ∅ in
  let self := match image_processor_path with
              | ANone => self
              | v => <["image_processor_path" := v]> self
              end in
  let self := match detector_path with
              | ANone => self
              | v => <["detector_path" := v]> self
              end in
  let self := match torch_device with
              | ANone => self
              | v => <["torch_device" := v]> self
              end in
  self.

(** [config.name]: the deprecated property raises; otherwise the instance
    dictionary is read before the class. *)
Definition config_getattr (self : gmap string attr) (name : string) : attr_outcome :=
  if bool_decide (name = "confidence_score_threshold") then RaiseDeprecationWarning
  else match self !! name with
       | Some v => Attr v
       | None =>
           match TableDetectorConfig_class !! name with
           | Some v => Attr v
           | None => RaiseAttributeError
           end
       end.

(** Assigning an attribute gives the configuration back or raises. *)
Inductive assign_outcome : Type :=
  | Assigned (self : gmap string attr)
  | AssignRaisesDeprecationWarning.

(** [config.name = v]: the deprecated property refuses; otherwise the
    instance dictionary is written. *)
Definition config_setattr (self : gmap string attr) (name : string) (v : attr)
  : assign_outcome :=
  if bool_decide (name = "confidence_score_threshold")
  then AssignRaisesDeprecationWarning
  else Assigned (<[name := v]> self).

(** [TableDetectorConfig( **config )] for a [dict] given to the detector:
    a key that is not a parameter of [__init__] is a [TypeError]. *)
Definition TableDetectorConfig_of_dict (config : gmap string attr)
  : outcome (gmap string attr) :=
  if bool_decide (dom config ⊆
                  ({["image_processor_path"; "detector_path"; "torch_device"]}
                   : gset string))
  then Return (TableDetectorConfig_init
                 (default ANone (config !! "image_processor_path"))
                 (default ANone (config !! "detector_path"))
                 (default ANone (config !! "torch_device")))
  else Raise TypeError.

(** The configuration [extract] works with: a copy of the detector's,
    its instance dictionary updated with that of the overrides. *)
Definition extract_config (self_config : gmap string attr)
    (config_overrides : option (gmap string attr)) : gmap string attr :=
  match config_overrides with
  | Some overrides => overrides ∪ self_config
  | None => self_config
  end.

(** [threshold = config.detector_base_threshold] in [extract]. *)
Definition extract_threshold (self_config : gmap string attr)
    (config_overrides : option (gmap string attr)) : attr_outcome :=
  config_getattr (extract_config self_config config_overrides)
    "detector_base_threshold".
End config.

(** ** The number-sensitive code over binary64 *)

(** [text_positions] of the base class and the first call of
    [predicted_word_height], with the coordinates as the IEEE 754
    binary64 numbers of a Python [float]. *)
Module B64.
Import PrimFloat.
#[local] Set Warnings "-inexact-float".
Local Open Scope float_scope.

Abbreviation word :=
  (PrimFloat.float * PrimFloat.float * PrimFloat.float * PrimFloat.float * string)%type.

(** Modelled from the spec: the class [Rect] of [gmft.common]. *)
Record Rect : Type := mkRect {
  xmin : PrimFloat.float; ymin : PrimFloat.float;
  xmax : PrimFloat.float; ymax : PrimFloat.float
}.

(** Modelled from the spec: [Rect.is_intersecting], boundary-inclusive. *)
Definition is_intersecting (a b : Rect) : bool :=
  leb (xmin a) (xmax b) && leb (xmin b) (xmax a) &&
  leb (ymin a) (ymax b) && leb (ymin b) (ymax a).

Definition remove_offset (r : Rect) (w : word) : word :=
  let '(w0, w1, w2, w3, w4) := w in
  (w0 - xmin r, w1 - ymin r, w2 - xmin r, w3 - ymin r, w4).

(** [CroppedTable.text_positions] over the words of the page and the
    rect of the table. *)
Definition CroppedTable_text_positions (words : list word) (rect : Rect)
    (remove_table_offset outside : bool) : list word :=
  w ← words;
  let '(w0, w1, w2, w3, w4) := w in
  if xorb (is_intersecting (mkRect w0 w1 w2 w3) rect) outside
  then (if remove_table_offset then [remove_offset rect w] else [w])
  else [].

(** [numpy.median] on a non-empty list, as in the exact model: sort,
    then the middle element or the mean of the two middle ones. *)
Fixpoint insert_sorted (x : PrimFloat.float) (l : list PrimFloat.float)
  : list PrimFloat.float :=
  match l with
  | [] => [x]
  | y :: l' => if leb x y then x :: l else y :: insert_sorted x l'
  end.

Definition median (l : list PrimFloat.float) : PrimFloat.float :=
  let s := foldr insert_sorted [] l in
  let n := length s in
  if Nat.even n
  then (nth (n / 2 - 1)%nat s 0 + nth (n / 2)%nat s 0) / 2
  else nth (n / 2)%nat s 0.

(** The loop that fills [word_heights]. *)
Definition collect_word_heights (smallest_supported_text_height : PrimFloat.float)
    (words : list word) : list PrimFloat.float :=
  foldl (λ word_heights w,
           let '(xmin, ymin, xmax, ymax, text) := w in
           let height := ymax - ymin in
           if ltb smallest_supported_text_height height
           then word_heights ++ [ymax - ymin]
           else word_heights)
        [] words.

(** The outcome of a first call of [predicted_word_height] (nothing
    cached) on a plain table. *)
Definition predicted_word_height (words : list word) (rect : Rect)
    (smallest_supported_text_height : PrimFloat.float) : outcome PrimFloat.float :=
  let word_heights :=
    collect_word_heights smallest_supported_text_height
      (CroppedTable_text_positions words rect true false) in
  match word_heights with
  | _ :: _ =>
      let h := 0.95 * median word_heights in
      if ltb 0 h then Return h else Raise AssertionError
  | [] => Return PrimFloat.nan
  end.
End B64.

(** * Vocabulary of the properties *)

(** The reconstruction as the specification words it: each word after the
    first is appended behind a line break when its bottom edge is at
    least [y_gap] away from the bottom edge of the word before it, and
    behind a single space otherwise. *)
Fixpoint append_following (y_gap previous_bottom : num) (ws : list word)
  : string :=
  match ws with
  | [] => ""
  | w :: ws' =>
      (if bool_decide (y_gap ≤ Qcabs (word_bottom w - previous_bottom))
       then newline +:+ word_text w
       else " " +:+ word_text w)
      +:+ append_following y_gap (word_bottom w) ws'
  end.

Definition reconstruct_lines (ws : list word) (y_gap : num) : string :=
  match ws with
  | [] => ""
  | w :: ws' => word_text w +:+ append_following y_gap (word_bottom w) ws'
  end.

Definition wordZ (x0 y0 x1 y1 : Z) (text : string) : word :=
  (Qc_of_Z x0, Qc_of_Z y0, Qc_of_Z x1, Qc_of_Z y1, text).

(** Translation back into page space by the top-left corner of [r]. *)
Definition add_offset (r : Rect) (w : word) : word :=
  let '(x0, y0, x1, y1, text) := w in
  (x0 + xmin r, y0 + ymin r, x1 + xmin r, y1 + ymin r, text).

(** The words the source loop keeps, before any translation. *)
Definition selected (self : CroppedTable) (outside : bool) : list word :=
  List.filter
    (λ w, xorb (is_intersecting (Rect_of_bbox (word_box w)) (rect self)) outside)
    (get_positions_and_text (page self)).

(** The remapping that [RotatedCroppedTable.text_positions] applies to an
    offset-removed word, by the angle of the table (the branches of its
    conditional; an angle of 0 leaves the word as it is). *)
Definition remap (angle : num) (r : Rect) (w : word) : word :=
  if bool_decide (angle = lit 90 1) then remap_90 r w
  else if bool_decide (angle = lit 180 1) then remap_180 r w
  else if bool_decide (angle = lit 270 1) then remap_270 r w
  else w.

(** [r'] frames the region [r] after a rotation by [θ] degrees: a
    quarter turn swaps width and height, a half turn keeps them. *)
Definition frame_rotated_by (θ : Z) (r r' : Rect) : Prop :=
  if bool_decide (θ = 180%Z)
  then width r' = width r ∧ height r' = height r
  else width r' = height r ∧ height r' = width r.

(** The region [extract] builds for the detection at index [i]. *)
Definition region_at (page : BasePage) (results : detections) (i : nat)
  : option table :=
  bbox ← boxes results !! i;
  confidence_score ← scores results !! i;
  label ← labels results !! i;
  Some (if bool_decide (label = 1%Z)
        then Rotated (mkRotatedCroppedTable
                        (CroppedTable_init page (OfTuple bbox) confidence_score label)
                        (lit 90 1))
        else Plain (CroppedTable_init page (OfTuple bbox) confidence_score label)).

Definition is_rotated (t : table) : bool :=
  match t with
  | Plain _ => false
  | Rotated _ => true
  end.

(** A table as a constructor leaves it: a rotated one passed the angle
    check. *)
Definition constructed (t : table) : Prop :=
  match t with
  | Plain _ => True
  | Rotated r => angle r ∈ supported_angles
  end.

(** Same class, same page, rect, confidence score and label, and same
    angle for the rotated class; the caches are not compared. *)
Definition same_region (t t' : table) : Prop :=
  page (attrs t') = page (attrs t) ∧
  rect (attrs t') = rect (attrs t) ∧
  confidence_score (attrs t') = confidence_score (attrs t) ∧
  label (attrs t') = label (attrs t) ∧
  match t, t' with
  | Plain _, Plain _ => True
  | Rotated r, Rotated r' => angle r' = angle r
  | _, _ => False
  end.

(** Height of a word box. *)
Definition word_height (w : word) : num :=
  let '(xmin, ymin, xmax, ymax, text) := w in ymax - ymin.

(** The heights of the offset-removed text positions of [self] that are
    strictly greater than the threshold, in page order. *)
Definition qualifying_heights (self : table) (threshold : num) : list num :=
  filter (λ h, threshold < h) (word_height <$> text_positions self true false).

(** Four words of heights 1, 1, 2 and 100 inside one region. *)
Definition sample_page : BasePage :=
  mkPage "sample.pdf" 0
    [wordZ 0 0 5 1 "a"; wordZ 6 0 10 1 "b"; wordZ 0 10 5 12 "c";
     wordZ 0 20 5 120 "d"].

Definition sample_table : table :=
  Plain (CroppedTable_init sample_page
           (OfTuple (lit 0 1, lit 0 1, lit 200 1, lit 200 1)) (lit 95 100) 0).

(** One word of height 0, a rule or a dash, inside a region. *)
Definition flat_page : BasePage :=
  mkPage "flat.pdf" 0 [wordZ 10 10 20 10 "-"].

Definition flat_table : table :=
  Plain (CroppedTable_init flat_page
           (OfTuple (lit 0 1, lit 0 1, lit 100 1, lit 100 1)) (lit 95 100) 0).

Definition captioned_table : table :=
  Plain {| page := sample_page;
           rect := mkRect (lit 0 1) (lit 0 1) (lit 200 1) (lit 200 1);
           confidence_score := lit 95 100; label := 0;
           _word_height := None;
           _captions := Some ["Table 1: results"; ""] |}.

(** The box of [w] is well formed and lies in the frame [0,W] × [0,H]. *)
Definition box_within (W H : num) (w : word) : Prop :=
  let '(x0, y0, x1, y1, text) := w in
  0 ≤ x0 ∧ x0 ≤ x1 ∧ x1 ≤ W ∧ 0 ≤ y0 ∧ y0 ≤ y1 ∧ y1 ≤ H.

(** Width of a word box. *)
Definition word_width (w : word) : num :=
  let '(x0, y0, x1, y1, text) := w in x1 - x0.

(** A rotated table with the attributes [t] and the angle of [θ] degrees. *)
Definition rotated_by (t : CroppedTable) (θ : Z) : table :=
  Rotated (mkRotatedCroppedTable t (lit θ 1)).

(** The page a table refers to. *)
Definition page_of (t : table) : BasePage := page (attrs t).

(** The margin of an [image] call, side by side: nothing for [None], 30
    units for 'auto'. *)
Definition margin_sides (margin : sides_arg num) : num * num * num * num :=
  match margin with
  | SidesNone => (0, 0, 0, 0)
  | SidesAuto => (lit 30 1, lit 30 1, lit 30 1, lit 30 1)
  | Sides m => m
  end.

(** [outer] contains [inner]. *)
Definition rect_contains (outer inner : Rect) : Prop :=
  xmin outer ≤ xmin inner ∧ ymin outer ≤ ymin inner ∧
  xmax inner ≤ xmax outer ∧ ymax inner ≤ ymax outer.

(** The longer side of the table's rect in pixels at resolution [dpi]. *)
Definition longest_side_px (self : CroppedTable) (dpi : num) : num :=
  py_max (width (rect self) * dpi / lit 72 1) (height (rect self) * dpi / lit 72 1).

(** The rect that [image] has the page render: the table's rect
    without a margin, and otherwise the rect moved outward by the
    margin on each side. *)
Definition crop_rect (self : CroppedTable) (margin : sides_arg num) : Rect :=
  match margin with
  | SidesNone => rect self
  | _ =>
      let '(m0, m1, m2, m3) := margin_sides margin in
      mkRect (xmin (rect self) - m0) (ymin (rect self) - m1)
             (xmax (rect self) + m2) (ymax (rect self) + m3)
  end.

(** The padding that [image] hands to the border expansion. *)
Definition resolved_padding (self : CroppedTable) (dpi : num)
    (padding : sides_arg Z) : Z * Z * Z * Z :=
  match padding with
  | SidesAuto =>
      let pad := py_int (longest_side_px self dpi * lit 1 10) in
      (pad, pad, pad, pad)
  | SidesNone => (0, 0, 0, 0)%Z
  | Sides p => p
  end.

(** Binary64 inputs of the examples. *)
Module B64_examples.
Import PrimFloat.
#[local] Set Warnings "-inexact-float".
Local Open Scope float_scope.

(** Translation back into page space by the top-left corner of [r]. *)
Definition add_offset (r : B64.Rect) (w : B64.word) : B64.word :=
  let '(x0, y0, x1, y1, text) := w in
  (x0 + B64.xmin r, y0 + B64.ymin r, x1 + B64.xmin r, y1 + B64.ymin r, text).

(** A region with corner (0.3, 0.3) and one word from (0.9, 0.9) to
    (1.2, 1.2) inside it. *)
Definition offset_rect : B64.Rect := B64.mkRect 0.3 0.3 5 5.
Definition offset_words : list B64.word := [(0.9, 0.9, 1.2, 1.2, "w")].
Definition offset_x0 : PrimFloat.float := 0.9.
Definition shifted_back : list B64.word :=
  [(0.9000000000000001, 0.9000000000000001, 1.2, 1.2, "w")].

(** The four words of [sample_page] and the rect of [sample_table]. *)
Definition sample_rect : B64.Rect := B64.mkRect 0 0 200 200.
Definition sample_words : list B64.word :=
  [(0, 0, 5, 1, "a"); (6, 0, 10, 1, "b"); (0, 10, 5, 12, "c"); (0, 20, 5, 120, "d")].
Definition default_threshold : PrimFloat.float := 0.1.
Definition sample_median : PrimFloat.float := 1.5.
Definition sample_height : PrimFloat.float := 1.4249999999999998.
Definition decimal_1425 : PrimFloat.float := 1.425.

(** The first x coordinate of a list of words equals [x]. *)
Definition first_x0_is (x : PrimFloat.float) (ws : list B64.word) : bool :=
  match ws with
  | (x0, _, _, _, _) :: _ => eqb x0 x
  | [] => false
  end.
End B64_examples.

(** * Properties *)

(** ** Line reconstruction *)

Lemma string_app_assoc (a b c : string) : (a +:+ b) +:+ c = a +:+ b +:+ c.
Proof.
  induction a as [|ch a IH]; [done|].
  change (String ch ((a +:+ b) +:+ c) = String ch (a +:+ b +:+ c)).
  by rewrite IH.
Qed.

Lemma string_app_empty_r (a : string) : a +:+ "" = a.
Proof.
  induction a as [|ch a IH]; [done|].
  change (String ch (a +:+ "") = String ch a). by rewrite IH.
Qed.

Lemma position_words_loop (y_gap : num) (ws : list word) :
  ∀ prev_bottom lines,
    snd (foldl (position_words_step y_gap) (prev_bottom, lines) ws)
    = lines +:+ append_following y_gap prev_bottom ws.
Proof.
  induction ws as [|[[[[x0 y0] x1] y1] text] ws IH]; intros prev_bottom lines.
  - simpl. by rewrite string_app_empty_r.
  - cbn [foldl position_words_step append_following word_bottom word_text fst snd].
    case_bool_decide; rewrite IH, !string_app_assoc; done.
Qed.

(** C4. [position_words] starts with the text of the first word and
    appends every later word behind a line break when the absolute
    difference between its bottom edge and that of the word just before it
    is at least [y_gap], behind a space otherwise; the bottom compared
    against is that of the latest word, not the largest seen; no words
    give the empty string; and the three words A, B, C of the
    specification give "A B", line break, "C" with the default gap 3. *)
Theorem position_words_reconstructs_lines :
  (∀ ws y_gap, position_words ws y_gap = reconstruct_lines ws y_gap) ∧
  (∀ y_gap, position_words [] y_gap = "") ∧
  y_gap_default = Qc_of_Z 3 ∧
  position_words
    [wordZ 0 0 10 10 "A"; wordZ 12 0 20 10 "B"; wordZ 0 20 10 30 "C"]
    y_gap_default
  = "A B" +:+ newline +:+ "C" ∧
  position_words
    [wordZ 0 0 10 10 "A"; wordZ 0 0 10 0 "B"; wordZ 0 0 10 9 "C"]
    y_gap_default
  = "A" +:+ newline +:+ "B" +:+ newline +:+ "C".
Proof.
  split; [|split; [|split; [|split]]].
  - intros [|[[[[x0 y0] x1] y1] text] ws] y_gap; [done|].
    unfold position_words, reconstruct_lines. apply position_words_loop.
  - done.
  - by apply Qc_is_canon.
  - by vm_compute.
  - by vm_compute.
Qed.

(** ** Text positions: offsets and rotations *)

Lemma lit_neq (a b : Z) : a ≠ b → lit a 1 ≠ lit b 1.
Proof.
  intros Hab Heq. apply Hab. apply Q2Qc_eq_iff in Heq.
  unfold Qeq in Heq. simpl in Heq. lia.
Qed.

Lemma add_remove_offset (r : Rect) (w : word) :
  add_offset r (remove_offset r w) = w.
Proof.
  destruct w as [[[[x0 y0] x1] y1] text]. unfold add_offset, remove_offset.
  repeat f_equal; ring.
Qed.

Lemma CroppedTable_text_positions_selected (self : CroppedTable)
    (remove_table_offset outside : bool) :
  CroppedTable_text_positions self remove_table_offset outside
  = (if remove_table_offset then remove_offset (rect self) else id)
      <$> selected self outside.
Proof.
  unfold CroppedTable_text_positions, selected.
  induction (get_positions_and_text (page self)) as [|w ws IH]; [done|].
  cbn [mbind list_bind List.filter]. cbn [mbind] in IH. rewrite IH.
  destruct (xorb _ outside), remove_table_offset; done.
Qed.

Lemma B64_text_positions_offset_removed (words : list B64.word) (rect : B64.Rect)
    (outside : bool) :
  B64.CroppedTable_text_positions words rect true outside
  = B64.remove_offset rect <$> B64.CroppedTable_text_positions words rect false outside.
Proof.
  unfold B64.CroppedTable_text_positions.
  induction words as [|[[[[w0 w1] w2] w3] w4] ws IH]; [done|].
  cbn [mbind list_bind]. cbn [mbind] in IH. rewrite IH, fmap_app.
  by destruct (xorb _ outside).
Qed.

(** C8, as the code has it.  For a region, offset removal is the
    subtraction of (rect.xmin, rect.ymin) from the corners of every
    page-space box and nothing else: same words, same order, same text,
    in the exact model and over binary64 alike.  Adding the corner back
    gives the page-space positions again in exact arithmetic; over
    binary64 it does so only up to rounding: with the corner (0.3, 0.3),
    the coordinate 0.9 comes back as 0.9000000000000001. *)
Theorem offset_round_trip (self : CroppedTable) (outside : bool) :
  add_offset (rect self) <$> text_positions (Plain self) true outside
  = text_positions (Plain self) false outside
  ∧ text_positions (Plain self) true outside
    = (λ w : word,
         let '(x0, y0, x1, y1, text) := w in
         (x0 - xmin (rect self), y0 - ymin (rect self),
          x1 - xmin (rect self), y1 - ymin (rect self), text))
      <$> text_positions (Plain self) false outside
  ∧ (∀ (words : list B64.word) (r : B64.Rect),
       B64.CroppedTable_text_positions words r true outside
       = (λ w : B64.word,
            let '(x0, y0, x1, y1, text) := w in
            (PrimFloat.sub x0 (B64.xmin r), PrimFloat.sub y0 (B64.ymin r),
             PrimFloat.sub x1 (B64.xmin r), PrimFloat.sub y1 (B64.ymin r), text))
         <$> B64.CroppedTable_text_positions words r false outside)
  ∧ B64.CroppedTable_text_positions
      B64_examples.offset_words B64_examples.offset_rect false false
    = B64_examples.offset_words
  ∧ B64_examples.add_offset B64_examples.offset_rect
      <$> B64.CroppedTable_text_positions
            B64_examples.offset_words B64_examples.offset_rect true false
    = B64_examples.shifted_back.
Proof.
  cbn [text_positions]. rewrite !CroppedTable_text_positions_selected.
  repeat apply conj.
  - rewrite <- list_fmap_compose, list_fmap_id.
    rewrite <- (list_fmap_id (selected self outside)) at 2.
    apply list_fmap_ext. intros i w _. apply add_remove_offset.
  - rewrite list_fmap_id. apply list_fmap_ext.
    by intros i [[[[x0 y0] x1] y1] text] _.
  - intros words r. rewrite B64_text_positions_offset_removed.
    apply list_fmap_ext. by intros i [[[[x0 y0] x1] y1] text] _.
  - reflexivity.
  - reflexivity.
Qed.

(** The statement of C8 without a tolerance fails on the code: over
    binary64, the offset-removed positions translated back by the corner
    are not the page-space positions. *)
Lemma offset_round_trip_inexact_in_binary64 :
  B64_examples.add_offset B64_examples.offset_rect
    <$> B64.CroppedTable_text_positions
          B64_examples.offset_words B64_examples.offset_rect true false
  ≠ B64.CroppedTable_text_positions
      B64_examples.offset_words B64_examples.offset_rect false false.
Proof.
  intros Heq.
  apply (f_equal (B64_examples.first_x0_is B64_examples.offset_x0)) in Heq.
  vm_compute in Heq. discriminate.
Qed.

Lemma remap_text_positions (self : RotatedCroppedTable) (outside : bool) :
  angle self ∈ supported_angles →
  RotatedCroppedTable_text_positions self true outside
  = remap (angle self) (rect (super self))
      <$> CroppedTable_text_positions (super self) true outside.
Proof.
  intros Hin. unfold RotatedCroppedTable_text_positions, remap.
  unfold supported_angles in Hin. rewrite !elem_of_cons, elem_of_nil in Hin.
  destruct Hin as [->|[->|[->|[->|[]]]]]; by rewrite ?list_fmap_id.
Qed.

Lemma Qc_sub_sub (a b : num) : a - (a - b) = b.
Proof. ring. Qed.

Lemma remap_at_90 r w : remap (lit 90 1) r w = remap_90 r w.
Proof. unfold remap. by rewrite bool_decide_eq_true_2. Qed.

Lemma remap_at_180 r w : remap (lit 180 1) r w = remap_180 r w.
Proof.
  unfold remap. rewrite bool_decide_eq_false_2 by by apply lit_neq.
  by rewrite bool_decide_eq_true_2.
Qed.

Lemma remap_at_270 r w : remap (lit 270 1) r w = remap_270 r w.
Proof.
  unfold remap. rewrite !bool_decide_eq_false_2 by by apply lit_neq.
  by rewrite bool_decide_eq_true_2.
Qed.

(** C1. For every region rect and every box, the remapping of angle θ
    followed by the remapping of angle (360 − θ) mod 360, the latter with
    the width and height of the frame rotated by θ (swapped for 90 and
    270), gives the box back, for θ = 90, 180 and 270. *)
Theorem rotation_composition_law (θ : Z) (r r' : Rect) (w : word) :
  θ ∈ [90; 180; 270]%Z →
  frame_rotated_by θ r r' →
  remap (lit ((360 - θ) `mod` 360) 1) r' (remap (lit θ 1) r w) = w.
Proof.
  intros Hθ. rewrite !elem_of_cons, elem_of_nil in Hθ.
  destruct w as [[[[x0 y0] x1] y1] text].
  destruct Hθ as [->|[->|[->|[]]]]; intros [Hw Hh].
  - change ((360 - 90) `mod` 360)%Z with 270%Z.
    rewrite remap_at_90, remap_at_270. unfold remap_90, remap_270.
    by rewrite Hw, !Qc_sub_sub.
  - change ((360 - 180) `mod` 360)%Z with 180%Z.
    rewrite (remap_at_180 r), (remap_at_180 r'). unfold remap_180.
    by rewrite Hw, Hh, !Qc_sub_sub.
  - change ((360 - 270) `mod` 360)%Z with 90%Z.
    rewrite remap_at_270, remap_at_90. unfold remap_90, remap_270.
    by rewrite Hh, !Qc_sub_sub.
Qed.

Lemma rotation_composition_law_witness :
  let r := Rect_of_bbox (lit 10 1, lit 10 1, lit 110 1, lit 60 1) in
  let r' := Rect_of_bbox (lit 0 1, lit 0 1, lit 50 1, lit 100 1) in
  let w := wordZ 20 5 45 15 "cell" in
  90%Z ∈ [90; 180; 270]%Z ∧ frame_rotated_by 90 r r' ∧
  remap (lit ((360 - 90) `mod` 360) 1) r' (remap (lit 90 1) r w) = w.
Proof.
  assert (H90 : 90%Z ∈ [90; 180; 270]%Z) by (apply (bool_decide_unpack _); vm_compute; exact I).
  assert (Hf : frame_rotated_by 90
                 (Rect_of_bbox (lit 10 1, lit 10 1, lit 110 1, lit 60 1))
                 (Rect_of_bbox (lit 0 1, lit 0 1, lit 50 1, lit 100 1)))
    by (split; apply Qc_is_canon; reflexivity).
  exact (conj H90 (conj Hf (rotation_composition_law 90 _ _ _ H90 Hf))).
Defined.

(** C2. With offset removal requested, the text positions of a rotated
    table are the offset-removed words of the base class remapped by the
    transform of its angle: 90 gives (H − y1, x0, H − y0, x1), 180 gives
    (W − x1, H − y1, W − x0, H − y0) and 270 gives (y0, W − x1, y1, W − x0),
    with W and H the width and height of the table's rect; with angle 0,
    or without offset removal, they are those of the base class. *)
Theorem rotated_text_positions (t : CroppedTable) (outside : bool) :
  let W := xmax (rect t) - xmin (rect t) in
  let H := ymax (rect t) - ymin (rect t) in
  let base := CroppedTable_text_positions t in
  text_positions (Rotated (mkRotatedCroppedTable t (lit 90 1))) true outside
  = (λ w : word, let '(x0, y0, x1, y1, text) := w in
                 (H - y1, x0, H - y0, x1, text)) <$> base true outside
  ∧ text_positions (Rotated (mkRotatedCroppedTable t (lit 180 1))) true outside
  = (λ w : word, let '(x0, y0, x1, y1, text) := w in
                 (W - x1, H - y1, W - x0, H - y0, text)) <$> base true outside
  ∧ text_positions (Rotated (mkRotatedCroppedTable t (lit 270 1))) true outside
  = (λ w : word, let '(x0, y0, x1, y1, text) := w in
                 (y0, W - x1, y1, W - x0, text)) <$> base true outside
  ∧ (∀ remove_table_offset,
       text_positions (Rotated (mkRotatedCroppedTable t (lit 0 1)))
         remove_table_offset outside
       = text_positions (Plain t) remove_table_offset outside)
  ∧ (∀ angle,
       text_positions (Rotated (mkRotatedCroppedTable t angle)) false outside
       = text_positions (Plain t) false outside).
Proof.
  cbn zeta. cbn [text_positions].
  unfold RotatedCroppedTable_text_positions. cbn [angle super].
  repeat apply conj; try reflexivity.
  intros angle. by rewrite orb_true_r.
Qed.

(** ** Construction *)

(** C9. Constructing a rotated table with an angle outside 0, 90, 180,
    270 raises the construction error and gives no object; with one of
    the four angles it succeeds and the object stores that angle. *)
Theorem rotated_init_angle_check (page : BasePage) (bbox : bbox_arg)
    (confidence_score : num) (angle : num) (label : Z) :
  (angle ∉ [lit 0 1; lit 90 1; lit 180 1; lit 270 1] →
   RotatedCroppedTable_init page bbox confidence_score angle label
   = Raise (ValueError "Only 0, 90, 180, 270 are supported."))
  ∧
  (angle ∈ [lit 0 1; lit 90 1; lit 180 1; lit 270 1] →
   RotatedCroppedTable_init page bbox confidence_score angle label
   = Return (mkRotatedCroppedTable
               (CroppedTable_init page bbox confidence_score label) angle)).
Proof.
  unfold RotatedCroppedTable_init, supported_angles.
  split; intros Hangle.
  - by rewrite bool_decide_eq_true_2.
  - rewrite bool_decide_eq_false_2; [done | by intros []].
Qed.

Lemma rotated_init_angle_check_witness :
  let page := mkPage "a.pdf" 0 [] in
  let bbox := OfTuple (lit 10 1, lit 10 1, lit 110 1, lit 60 1) in
  ((lit 45 1 ∉ [lit 0 1; lit 90 1; lit 180 1; lit 270 1]) ∧
   RotatedCroppedTable_init page bbox (lit 95 100) (lit 45 1) 1
   = Raise (ValueError "Only 0, 90, 180, 270 are supported."))
  ∧
  ((lit 270 1 ∈ [lit 0 1; lit 90 1; lit 180 1; lit 270 1]) ∧
   RotatedCroppedTable_init page bbox (lit 95 100) (lit 270 1) 1
   = Return (mkRotatedCroppedTable
               (CroppedTable_init page bbox (lit 95 100) 1) (lit 270 1))).
Proof.
  assert (H45 : lit 45 1 ∉ [lit 0 1; lit 90 1; lit 180 1; lit 270 1])
    by (apply (bool_decide_unpack _); vm_compute; exact I).
  assert (H270 : lit 270 1 ∈ [lit 0 1; lit 90 1; lit 180 1; lit 270 1])
    by (apply (bool_decide_unpack _); vm_compute; exact I).
  exact (conj
    (conj H45 (proj1 (rotated_init_angle_check _ _ _ _ _) H45))
    (conj H270 (proj2 (rotated_init_angle_check _ _ _ _ _) H270))).
Defined.

(** ** Detector orchestration *)

Section mapM_outcome.
Context {A B : Type} (f : A → outcome B).

Lemma mapM_outcome_Return (l : list A) (g : A → B) :
  (∀ x, x ∈ l → f x = Return (g x)) → mapM f l = Return (g <$> l).
Proof.
  induction l as [|x l IH]; intros Hf; [done|].
  cbn [mapM fmap list_fmap].
  rewrite (Hf x) by left. cbn [mbind outcome_bind].
  rewrite IH; [done|]. intros y Hy. apply Hf. by right.
Qed.
End mapM_outcome.

(** C7. Given the detections of the model as parallel sequences of boxes,
    scores and labels, [extract] returns one region per detection, in
    the order of the detections: label 1 gives a rotated table of angle
    90 with the label kept, any other label a plain table with that
    label, each with the detection's bbox and confidence score. *)
Theorem extract_one_region_per_detection (page : BasePage) (results : detections) :
  length (scores results) = length (boxes results) →
  length (labels results) = length (boxes results) →
  ∃ tables,
    extract page results = Return tables ∧
    length tables = length (boxes results) ∧
    ∀ i bbox confidence_score label,
      boxes results !! i = Some bbox →
      scores results !! i = Some confidence_score →
      labels results !! i = Some label →
      tables !! i =
        Some (if bool_decide (label = 1%Z)
              then Rotated
                     {| super := {| page := page; rect := Rect_of_bbox bbox;
                                    confidence_score := confidence_score;
                                    label := label;
                                    _word_height := None; _captions := None |};
                        angle := lit 90 1 |}
              else Plain
                     {| page := page; rect := Rect_of_bbox bbox;
                        confidence_score := confidence_score; label := label;
                        _word_height := None; _captions := None |}).
Proof.
  intros Hs Hl.
  set (g := λ i, default (Plain (CroppedTable_init page (OfTuple (0, 0, 0, 0)) 0 0))
                   (region_at page results i)).
  exists (g <$> seq 0 (length (boxes results))).
  split; [|split].
  - unfold extract. apply mapM_outcome_Return.
    intros i Hi. apply elem_of_seq in Hi as [_ Hi]. cbn in Hi.
    destruct (lookup_lt_is_Some_2 (boxes results) i Hi) as [b Hb].
    destruct (lookup_lt_is_Some_2 (scores results) i ltac:(lia)) as [s Hsc].
    destruct (lookup_lt_is_Some_2 (labels results) i ltac:(lia)) as [l Hlb].
    unfold g, region_at, index. cbn beta. rewrite Hb, Hsc, Hlb.
    cbn [mbind outcome_bind option_bind default].
    case_bool_decide; [|done].
    unfold RotatedCroppedTable_init.
    by rewrite bool_decide_eq_false_2 by (intros Hn; apply Hn; vm_compute; set_solver).
  - by rewrite length_fmap, length_seq.
  - intros i b s l Hb Hsc Hlb.
    rewrite list_lookup_fmap, lookup_seq_lt by by eapply lookup_lt_Some.
    cbn [fmap option_fmap option_map Nat.add]. f_equal.
    unfold g, region_at. by rewrite Hb, Hsc, Hlb.
Qed.

Lemma extract_one_region_per_detection_witness :
  let page := mkPage "a.pdf" 0 [] in
  let results :=
    mkDetections [(lit 10 1, lit 10 1, lit 110 1, lit 60 1);
                  (lit 0 1, lit 0 1, lit 50 1, lit 100 1)]
                 [lit 95 100; lit 92 100] [0%Z; 1%Z] in
  length (scores results) = length (boxes results) ∧
  length (labels results) = length (boxes results) ∧
  ∃ tables,
    extract page results = Return tables ∧
    length tables = length (boxes results) ∧
    ∀ i bbox confidence_score label,
      boxes results !! i = Some bbox →
      scores results !! i = Some confidence_score →
      labels results !! i = Some label →
      tables !! i =
        Some (if bool_decide (label = 1%Z)
              then Rotated
                     {| super := {| page := page; rect := Rect_of_bbox bbox;
                                    confidence_score := confidence_score;
                                    label := label;
                                    _word_height := None; _captions := None |};
                        angle := lit 90 1 |}
              else Plain
                     {| page := page; rect := Rect_of_bbox bbox;
                        confidence_score := confidence_score; label := label;
                        _word_height := None; _captions := None |}).
Proof.
  intros page results.
  split; [reflexivity|]. split; [reflexivity|].
  apply (extract_one_region_per_detection page results); reflexivity.
Defined.

(** ** Serialization *)

Lemma Rect_of_bbox_bbox (r : Rect) : Rect_of_bbox (Rect_bbox r) = r.
Proof. by destruct r. Qed.

Lemma RotatedCroppedTable_from_dict_dispatch d page :
  RotatedCroppedTable_from_dict d page = CroppedTable_from_dict d page.
Proof.
  unfold CroppedTable_from_dict, RotatedCroppedTable_from_dict.
  repeat case_bool_decide; congruence.
Qed.

Lemma from_dict_plain_record d page bbox score label :
  d !! "angle" = None →
  d !! "bbox" = Some (VBBox bbox) →
  d !! "confidence_score" = Some (VNum score) →
  d !! "label" = Some (VInt label) →
  d !! "captions" = None →
  CroppedTable_from_dict d page
  = Return (Plain {| page := page; rect := Rect_of_bbox bbox;
                     confidence_score := score; label := label;
                     _word_height := None; _captions := Some [] |}).
Proof.
  intros Ha Hb Hs Hl Hc.
  unfold CroppedTable_from_dict, CroppedTable_from_dict_plain, getitem, get_captions.
  by rewrite Ha, Hb, Hs, Hl, Hc.
Qed.

Lemma from_dict_rotated_record d page bbox score angle label :
  d !! "angle" = Some (VNum angle) →
  angle ∈ supported_angles →
  d !! "bbox" = Some (VBBox bbox) →
  d !! "confidence_score" = Some (VNum score) →
  d !! "label" = Some (VInt label) →
  d !! "captions" = None →
  CroppedTable_from_dict d page
  = Return (Rotated
              {| super := {| page := page; rect := Rect_of_bbox bbox;
                             confidence_score := score; label := label;
                             _word_height := None; _captions := Some [] |};
                 angle := angle |}).
Proof.
  intros Ha Hin Hb Hs Hl Hc.
  unfold CroppedTable_from_dict, RotatedCroppedTable_from_dict, getitem, get_captions.
  rewrite Ha, Hb, Hs, Hl, Hc. cbn.
  unfold RotatedCroppedTable_init.
  rewrite bool_decide_eq_false_2; [done | by intros []].
Qed.

Lemma from_dict_class d page t :
  CroppedTable_from_dict d page = Return t →
  is_rotated t = true ↔ is_Some (d !! "angle").
Proof.
  unfold CroppedTable_from_dict, RotatedCroppedTable_from_dict,
    CroppedTable_from_dict_plain.
  destruct (d !! "angle") as [va|] eqn:Ha.
  - rewrite bool_decide_eq_true_2, bool_decide_eq_false_2 by done.
    intros Hret. split; [by eauto|intros _].
    repeat match type of Hret with
           | (?m ≫= _) = _ => destruct m; cbn in Hret; try done
           end.
    by inversion Hret.
  - rewrite bool_decide_eq_false_2 by (by intros []).
    intros Hret. split; [|by intros []].
    repeat match type of Hret with
           | (?m ≫= _) = _ => destruct m; cbn in Hret; try done
           end.
    by inversion Hret.
Qed.

Lemma lookup_to_dict (t : table) :
  to_dict t !! "bbox" = Some (VBBox (Rect_bbox (rect (attrs t)))) ∧
  to_dict t !! "confidence_score" = Some (VNum (confidence_score (attrs t))) ∧
  to_dict t !! "label" = Some (VInt (label (attrs t))) ∧
  to_dict t !! "captions" = None ∧
  to_dict t !! "angle"
  = match t with Plain _ => None | Rotated r => Some (VNum (angle r)) end.
Proof.
  destruct t as [t|r]; cbn [to_dict attrs];
    unfold RotatedCroppedTable_to_dict, CroppedTable_to_dict;
    repeat split; by simplify_map_eq.
Qed.

(** C3. Deserializing the record of a constructed table, plain or
    rotated, with the same page gives a table of the same class with the
    same rect, confidence score, label and, for a rotated table, angle;
    and whatever the record, a deserialized table is rotated exactly when
    the record has the field 'angle', from either entry point. *)
Theorem serialization_round_trip :
  (∀ t : table,
     constructed t →
     ∃ t', CroppedTable_from_dict (to_dict t) (page (attrs t)) = Return t' ∧
           same_region t t')
  ∧ (∀ d page t',
       CroppedTable_from_dict d page = Return t' →
       (is_rotated t' = true ↔ is_Some (d !! "angle")) ∧
       (is_rotated t' = false ↔ d !! "angle" = None))
  ∧ (∀ d page,
       RotatedCroppedTable_from_dict d page = CroppedTable_from_dict d page).
Proof.
  split; [|split].
  - intros t Ht.
    destruct (lookup_to_dict t) as (Hb & Hs & Hl & Hc & Ha).
    destruct t as [t|r]; cbn [attrs] in *.
    + eexists. split.
      * by apply from_dict_plain_record.
      * unfold same_region. cbn [attrs page rect confidence_score label].
        by rewrite Rect_of_bbox_bbox.
    + eexists. split.
      * by apply from_dict_rotated_record.
      * unfold same_region. cbn [attrs super page rect confidence_score label angle].
        by rewrite Rect_of_bbox_bbox.
  - intros d page t' Hret. pose proof (from_dict_class d page t' Hret) as Hc.
    split; [done|].
    rewrite <- not_true_iff_false, Hc, <- eq_None_not_Some. done.
  - apply RotatedCroppedTable_from_dict_dispatch.
Qed.

Lemma serialization_round_trip_witness :
  let page := mkPage "a.pdf" 3 [] in
  let t := Rotated
             {| super := {| page := page;
                            rect := mkRect (lit 10 1) (lit 10 1) (lit 110 1) (lit 60 1);
                            confidence_score := lit 95 100; label := 1;
                            _word_height := Some (fl (lit 9 1));
                            _captions := Some ["above"; "below"] |};
                angle := lit 90 1 |} in
  constructed t ∧
  ∃ t', CroppedTable_from_dict (to_dict t) page = Return t' ∧ same_region t t'.
Proof.
  intros page t.
  assert (Ht : constructed t) by (apply (bool_decide_unpack _); vm_compute; exact I).
  exact (conj Ht (proj1 serialization_round_trip t Ht)).
Defined.

(** ** Calibration word height *)

Lemma collect_word_heights_loop (threshold : num) (ws : list word) :
  ∀ acc,
    foldl (λ word_heights w,
             let '(xmin, ymin, xmax, ymax, text) := w in
             let height := ymax - ymin in
             if bool_decide (threshold < height)
             then word_heights ++ [ymax - ymin]
             else word_heights)
          acc ws
    = acc ++ filter (λ h, threshold < h) (word_height <$> ws).
Proof.
  induction ws as [|[[[[x0 y0] x1] y1] text] ws IH]; intros acc.
  - by rewrite app_nil_r.
  - cbn [foldl fmap list_fmap word_height]. rewrite IH, filter_cons.
    case_bool_decide; case_decide; try done. by rewrite <- app_assoc.
Qed.

Lemma collect_word_heights_filter (threshold : num) (ws : list word) :
  collect_word_heights threshold ws
  = filter (λ h, threshold < h) (word_height <$> ws).
Proof. apply collect_word_heights_loop. Qed.

Lemma nth_Forall {A} (P : A → Prop) (l : list A) (i : nat) (d : A) :
  Forall P l → (i < length l)%nat → P (nth i l d).
Proof.
  intros HF Hi. destruct (lookup_lt_is_Some_2 l i Hi) as [x Hx].
  rewrite (nth_lookup_Some _ _ _ _ Hx). by eapply Forall_lookup_1.
Qed.

Lemma Qc_half_pos (a : num) : 0 < a → 0 < a / lit 2 1.
Proof.
  intros Ha. unfold Qcdiv. rewrite <- (Qcmult_0_l (/ lit 2 1)).
  by apply Qcmult_lt_compat_r.
Qed.

Lemma Qc_scale_pos (a : num) : 0 < a → 0 < lit 95 100 * a.
Proof.
  intros Ha. rewrite Qcmult_comm, <- (Qcmult_0_l (lit 95 100)).
  by apply Qcmult_lt_compat_r.
Qed.

Lemma median_pos (l : list num) :
  l ≠ [] → Forall (λ h, 0 < h) l → 0 < median l.
Proof.
  intros Hne HF. unfold median.
  assert (Hs : Forall (λ h, 0 < h) (merge_sort Qcle l))
    by by rewrite merge_sort_Permutation.
  assert (Hlen : (0 < length (merge_sort Qcle l))%nat).
  { rewrite merge_sort_Permutation. destruct l; [done | simpl; lia]. }
  pose proof (Nat.div_lt _ 2 Hlen ltac:(lia)) as Hmid.
  destruct (Nat.even _).
  - apply Qc_half_pos, Qcplus_pos_pos; apply nth_Forall; done || lia.
  - by apply nth_Forall.
Qed.

Lemma word_height_set_get (self : table) (h : float) :
  _word_height (attrs (set_word_height self h)) = Some h.
Proof. by destruct self. Qed.

Lemma predicted_word_height_uncached (self : table) (t : num) :
  _word_height (attrs self) = None →
  predicted_word_height self t
  = match qualifying_heights self t with
    | [] => (Return nan, set_word_height self nan)
    | _ :: _ =>
        let h := lit 95 100 * median (qualifying_heights self t) in
        if bool_decide (0 < h)
        then (Return (fl h), set_word_height self (fl h))
        else (Raise AssertionError, set_word_height self (fl h))
    end.
Proof.
  intros Hnone. unfold predicted_word_height, qualifying_heights.
  rewrite Hnone, collect_word_heights_filter. by destruct (filter _ _).
Qed.

Lemma qualifying_heights_pos (self : table) (t : num) :
  0 ≤ t → Forall (λ h, 0 < h) (qualifying_heights self t).
Proof.
  intros Ht. apply Forall_forall. intros h Hh.
  apply list_elem_of_filter in Hh as [Hh _]. by eapply Qcle_lt_trans.
Qed.

(** C5, as the code has it.  On a first call (no cached value) the
    heights ymax − ymin of the offset-removed text positions that are
    strictly greater than the threshold are collected; when none
    qualifies the call returns the NaN sentinel; when some qualify and
    0.95 × their median is positive, which is always so for a threshold
    t ≥ 0 such as the default 0.1, the call returns 0.95 × median; when
    that product is not positive the call fails its assertion.  Heights
    1, 1, 2, 100 at threshold 0.1 have the median 1.5 and give the
    product 0.95 × 1.5, which binary64 evaluates to 1.4249999999999998,
    not to the decimal 1.425. *)
Theorem predicted_word_height_first_call :
  (∀ (self : table) (t : num),
     _word_height (attrs self) = None →
     let hs := qualifying_heights self t in
     let h := lit 95 100 * median hs in
     (hs = [] →
      predicted_word_height self t = (Return nan, set_word_height self nan))
     ∧ (hs ≠ [] → 0 < h →
        predicted_word_height self t
        = (Return (fl h), set_word_height self (fl h)))
     ∧ (hs ≠ [] → 0 ≤ t → 0 < h)
     ∧ (hs ≠ [] → ¬ 0 < h →
        predicted_word_height self t
        = (Raise AssertionError, set_word_height self (fl h))))
  ∧ smallest_supported_text_height_default = lit 1 10
  ∧ qualifying_heights sample_table smallest_supported_text_height_default
    = [lit 1 1; lit 1 1; lit 2 1; lit 100 1]
  ∧ median [lit 1 1; lit 1 1; lit 2 1; lit 100 1] = lit 15 10
  ∧ predicted_word_height sample_table smallest_supported_text_height_default
    = (Return (fl (lit 95 100 * lit 15 10)),
       set_word_height sample_table (fl (lit 95 100 * lit 15 10)))
  ∧ B64.median (B64.collect_word_heights B64_examples.default_threshold
                  (B64.CroppedTable_text_positions
                     B64_examples.sample_words B64_examples.sample_rect true false))
    = B64_examples.sample_median
  ∧ B64.predicted_word_height
      B64_examples.sample_words B64_examples.sample_rect
      B64_examples.default_threshold
    = Return B64_examples.sample_height
  ∧ PrimFloat.eqb B64_examples.sample_height B64_examples.decimal_1425 = false.
Proof.
  assert (Hgen : ∀ (self : table) (t : num),
     _word_height (attrs self) = None →
     let hs := qualifying_heights self t in
     let h := lit 95 100 * median hs in
     (hs = [] →
      predicted_word_height self t = (Return nan, set_word_height self nan))
     ∧ (hs ≠ [] → 0 < h →
        predicted_word_height self t
        = (Return (fl h), set_word_height self (fl h)))
     ∧ (hs ≠ [] → 0 ≤ t → 0 < h)
     ∧ (hs ≠ [] → ¬ 0 < h →
        predicted_word_height self t
        = (Raise AssertionError, set_word_height self (fl h)))).
  { intros self t Hnone hs h.
    pose proof (predicted_word_height_uncached self t Hnone) as Hp.
    fold hs in Hp. cbn zeta in Hp. fold h in Hp.
    repeat apply conj.
    - intros Hhs. by rewrite Hp, Hhs.
    - intros Hhs Hh. rewrite Hp. destruct hs; [done|].
      by rewrite bool_decide_eq_true_2.
    - intros Hhs Ht. apply Qc_scale_pos, median_pos; [done|].
      by apply qualifying_heights_pos.
    - intros Hhs Hh. rewrite Hp. destruct hs; [done|].
      by rewrite bool_decide_eq_false_2. }
  assert (Hq : qualifying_heights sample_table smallest_supported_text_height_default
               = [lit 1 1; lit 1 1; lit 2 1; lit 100 1]).
  { vm_compute. repeat (f_equal; [by apply Qc_is_canon|]). done. }
  assert (Hm : median [lit 1 1; lit 1 1; lit 2 1; lit 100 1] = lit 15 10)
    by by apply Qc_is_canon.
  repeat apply conj;
    [exact Hgen | done | exact Hq | exact Hm | | reflexivity..].
  destruct (Hgen sample_table smallest_supported_text_height_default eq_refl)
    as (_ & Hret & _).
  rewrite Hq, Hm in Hret. apply Hret; done.
Qed.

Lemma predicted_word_height_first_call_witness :
  _word_height (attrs sample_table) = None ∧
  qualifying_heights sample_table (lit 1 10) ≠ [] ∧
  0 ≤ lit 1 10 ∧
  0 < lit 95 100 * median (qualifying_heights sample_table (lit 1 10)).
Proof.
  assert (Hne : qualifying_heights sample_table (lit 1 10) ≠ [])
    by (vm_compute; discriminate).
  assert (Hle : 0 ≤ lit 1 10) by (vm_compute; discriminate).
  exact (conj eq_refl (conj Hne (conj Hle
    (proj1 (proj2 (proj2
       (proj1 predicted_word_height_first_call sample_table (lit 1 10) eq_refl)))
       Hne Hle)))).
Defined.

(** The statement of C5 without the positivity side condition fails: at
    threshold −1 a word of height 0 qualifies, 0.95 × median is 0, and the
    call raises instead of returning it. *)
Lemma predicted_word_height_negative_threshold :
  _word_height (attrs flat_table) = None ∧
  qualifying_heights flat_table (lit (-1) 1) ≠ [] ∧
  fst (predicted_word_height flat_table (lit (-1) 1)) = Raise AssertionError ∧
  ¬ (∀ (self : table) (t : num),
       _word_height (attrs self) = None →
       qualifying_heights self t ≠ [] →
       fst (predicted_word_height self t)
       = Return (fl (lit 95 100 * median (qualifying_heights self t)))).
Proof.
  assert (Hne : qualifying_heights flat_table (lit (-1) 1) ≠ [])
    by (vm_compute; discriminate).
  assert (Hraise : fst (predicted_word_height flat_table (lit (-1) 1))
                   = Raise AssertionError) by (vm_compute; reflexivity).
  repeat apply conj; [done | exact Hne | exact Hraise |].
  intros Hclaim. specialize (Hclaim flat_table (lit (-1) 1) eq_refl Hne).
  rewrite Hraise in Hclaim. discriminate.
Qed.




(** ** Captions *)

(** C6, evaluated on the code.  With a caption pair in the cache, a call
    that changes only [line_spacing] (3 instead of 2.5), and a call that
    changes only [margin], return the cached pair and make no call of the
    caption finder: the guard joins its two default tests with "or". *)
Theorem captions_nondefault_call_returns_cache {Margin Kwargs : Type}
    (_find_captions : table → option Margin → num → Kwargs → list string)
    (margin : Margin) (kwargs : Kwargs) :
  line_spacing_default = lit 5 2
  ∧ lit 3 1 ≠ line_spacing_default
  ∧ captions _find_captions captioned_table None (lit 3 1) kwargs
    = (["Table 1: results"; ""], captioned_table, [])
  ∧ captions _find_captions captioned_table (Some margin) line_spacing_default kwargs
    = (["Table 1: results"; ""], captioned_table, []).
Proof.
  repeat apply conj.
  - by apply Qc_is_canon.
  - intros Heq. apply Q2Qc_eq_iff in Heq. discriminate.
  - reflexivity.
  - reflexivity.
Qed.

(** * Further properties of the module *)

(** ** Text positions *)

Ltac qc_lra :=
  cbn beta in *; unfold Qcdiv, Qcinv, lit in *;
  unfold Qcle, Qclt, Qcminus, Qcplus, Qcopp, Qcmult in *; cbn [this Q2Qc] in *;
  rewrite ?Qred_correct in *; change (/ (2 # 1))%Q with (1 # 2)%Q in *; lra.

Lemma text_positions_page_space (self : table) (outside : bool) :
  text_positions self false outside = selected (attrs self) outside.
Proof.
  destruct self as [t|r]; cbn [text_positions attrs].
  - by rewrite CroppedTable_text_positions_selected, list_fmap_id.
  - unfold RotatedCroppedTable_text_positions. rewrite orb_true_r.
    by rewrite CroppedTable_text_positions_selected, list_fmap_id.
Qed.

Lemma selected_partition (t : CroppedTable) :
  selected t false ++ selected t true ≡ₚ get_positions_and_text (page t).
Proof.
  unfold selected.
  induction (get_positions_and_text (page t)) as [|w ws IH]; [done|].
  cbn [List.filter]. destruct (is_intersecting _ _); cbn [xorb negb].
  - cbn [app]. by rewrite IH.
  - by rewrite <- Permutation_middle, IH.
Qed.

Lemma elem_of_selected (t : CroppedTable) (outside : bool) (w : word) :
  w ∈ selected t outside ↔
  w ∈ get_positions_and_text (page t) ∧
  xorb (is_intersecting (Rect_of_bbox (word_box w)) (rect t)) outside = true.
Proof. unfold selected. by rewrite !list_elem_of_In, filter_In. Qed.

(** X1. In page space, the words inside a table and the words outside it
    (the complement) split the words of the page: together they are the
    page's words up to order, their numbers add up to the page's, and no
    word is in both. *)
Theorem text_positions_partition (self : table) :
  text_positions self false false ++ text_positions self false true
    ≡ₚ get_positions_and_text (page (attrs self))
  ∧ (length (text_positions self false false)
     + length (text_positions self false true)
     = length (get_positions_and_text (page (attrs self))))%nat
  ∧ ∀ w, w ∈ text_positions self false false →
         w ∉ text_positions self false true.
Proof.
  rewrite !text_positions_page_space.
  pose proof (selected_partition (attrs self)) as Hperm.
  repeat apply conj; [done | by rewrite <- length_app, Hperm |].
  intros w [_ Hin]%elem_of_selected [_ Hout]%elem_of_selected.
  destruct (is_intersecting _ _); done.
Qed.

(** X2. Without offset removal the text positions of a table, inside or
    outside, are a subsequence of the page's words: page order is kept
    and no word is altered or made up. *)
Theorem text_positions_subsequence (self : table) (outside : bool) :
  text_positions self false outside
    `sublist_of` get_positions_and_text (page (attrs self)).
Proof.
  rewrite text_positions_page_space. unfold selected.
  induction (get_positions_and_text (page (attrs self))) as [|w ws IH]; [done|].
  cbn [List.filter]. destruct (xorb _ outside).
  - by apply sublist_skip.
  - by apply sublist_cons.
Qed.

Lemma word_text_remove_offset (r : Rect) (w : word) :
  word_text (remove_offset r w) = word_text w.
Proof. by destruct w as [[[[x0 y0] x1] y1] text]. Qed.

Lemma word_text_remap (angle : num) (r : Rect) (w : word) :
  word_text (remap angle r w) = word_text w.
Proof.
  destruct w as [[[[x0 y0] x1] y1] text]. unfold remap.
  by repeat case_bool_decide.
Qed.

Lemma text_positions_offset_removed (self : table) (outside : bool) :
  constructed self →
  text_positions self true outside
  = (λ w, remap (match self with Plain _ => lit 0 1 | Rotated r => angle r end)
            (rect (attrs self)) (remove_offset (rect (attrs self)) w))
    <$> selected (attrs self) outside.
Proof.
  intros Hc. destruct self as [t|r]; cbn [text_positions attrs].
  - by rewrite CroppedTable_text_positions_selected.
  - rewrite remap_text_positions by done.
    by rewrite CroppedTable_text_positions_selected, <- list_fmap_compose.
Qed.

(** X3. For a table as its constructor leaves it, removing the table
    offset (and with it remapping for the rotation) changes boxes only:
    the texts of the words, their order and their number are those of
    the page-space positions. *)
Theorem text_positions_texts_kept (self : table) (outside : bool) :
  constructed self →
  word_text <$> text_positions self true outside
  = word_text <$> text_positions self false outside
  ∧ length (text_positions self true outside)
    = length (text_positions self false outside).
Proof.
  intros Hc.
  assert (Htexts : word_text <$> text_positions self true outside
                   = word_text <$> text_positions self false outside).
  { rewrite text_positions_offset_removed, text_positions_page_space by done.
    rewrite <- list_fmap_compose. apply list_fmap_ext. intros i w _.
    cbn [compose]. by rewrite word_text_remap, word_text_remove_offset. }
  split; [done|].
  by rewrite <- (length_fmap word_text), Htexts, length_fmap.
Qed.

Lemma text_positions_texts_kept_witness :
  let self := rotated_by (attrs sample_table) 270 in
  constructed self ∧
  word_text <$> text_positions self true false
  = word_text <$> text_positions self false false.
Proof.
  intros self.
  assert (Hc : constructed self) by (apply (bool_decide_unpack _); vm_compute; exact I).
  exact (conj Hc (proj1 (text_positions_texts_kept self false Hc))).
Defined.

(** X4. A well-formed box inside the offset-removed frame of a region,
    [0,W] × [0,H], is remapped to a well-formed box inside the upright
    frame: [0,H] × [0,W] for the quarter turns 90 and 270, and
    [0,W] × [0,H] for the half turn. *)
Theorem remap_keeps_box_in_frame (r : Rect) (w : word) :
  box_within (width r) (height r) w →
  box_within (height r) (width r) (remap_90 r w) ∧
  box_within (width r) (height r) (remap_180 r w) ∧
  box_within (height r) (width r) (remap_270 r w).
Proof.
  destruct w as [[[[x0 y0] x1] y1] text].
  unfold box_within, remap_90, remap_180, remap_270.
  generalize (width r) (height r). intros W H (? & ? & ? & ? & ? & ?).
  repeat apply conj; qc_lra.
Qed.

Lemma remap_keeps_box_in_frame_witness :
  let r := mkRect (lit 10 1) (lit 10 1) (lit 110 1) (lit 60 1) in
  let w := wordZ 20 5 45 15 "cell" in
  box_within (width r) (height r) w ∧
  box_within (height r) (width r) (remap_90 r w).
Proof.
  intros r w.
  assert (Hw : box_within (width r) (height r) w)
    by (repeat apply conj; vm_compute; discriminate).
  exact (conj Hw (proj1 (remap_keeps_box_in_frame r w Hw))).
Defined.

(** X5. On a table rotated by 90 degrees, the angle [extract] gives to
    every rotated detection, the box heights that [predicted_word_height]
    measures are the widths x1 − x0 of the offset-removed word boxes of
    the base class: the same subtraction on the same numbers. *)
Theorem rotated_heights_are_widths (t : CroppedTable) (threshold : num) :
  word_height <$> text_positions (rotated_by t 90) true false
  = word_width <$> text_positions (Plain t) true false
  ∧ qualifying_heights (rotated_by t 90) threshold
    = filter (λ h, threshold < h)
        (word_width <$> text_positions (Plain t) true false).
Proof.
  assert (Hh : word_height <$> text_positions (rotated_by t 90) true false
               = word_width <$> text_positions (Plain t) true false).
  { unfold rotated_by. cbn [text_positions].
    unfold RotatedCroppedTable_text_positions. cbn [angle super].
    rewrite bool_decide_eq_false_2 by by apply lit_neq. cbn [orb negb].
    rewrite bool_decide_eq_true_2 by done.
    rewrite <- list_fmap_compose. apply list_fmap_ext.
    by intros i [[[[x0 y0] x1] y1] text] _. }
  split; [done|]. unfold qualifying_heights. by rewrite Hh.
Qed.

Lemma remap_at_0 r w : remap (lit 0 1) r w = w.
Proof. unfold remap. by rewrite !bool_decide_eq_false_2 by by apply lit_neq. Qed.

Ltac reduce_angle_sum :=
  match goal with
  | |- context [((?a + ?b) `mod` 360)%Z] =>
      let z := eval vm_compute in ((a + b) `mod` 360)%Z in
      change ((a + b) `mod` 360)%Z with z
  end.

(** X6. The remappings compose like the rotations they undo: the
    remapping of θ1 followed by that of θ2, taken in the frame rotated by
    θ1, is the remapping of (θ1 + θ2) mod 360, for θ1 and θ2 among 90,
    180 and 270 (two quarter turns make the half turn, a quarter and a
    half turn the opposite quarter, and a full turn nothing). *)
Theorem remap_composition (θ1 θ2 : Z) (r r' : Rect) (w : word) :
  θ1 ∈ [90; 180; 270]%Z →
  θ2 ∈ [90; 180; 270]%Z →
  frame_rotated_by θ1 r r' →
  remap (lit θ2 1) r' (remap (lit θ1 1) r w)
  = remap (lit ((θ1 + θ2) `mod` 360) 1) r w.
Proof.
  intros H1 H2. rewrite !elem_of_cons, elem_of_nil in H1, H2.
  destruct w as [[[[x0 y0] x1] y1] text].
  destruct H1 as [->|[->|[->|[]]]]; destruct H2 as [->|[->|[->|[]]]];
    intros [Hw Hh]; reduce_angle_sum;
    rewrite ?remap_at_0;
    rewrite ?(remap_at_90 r), ?(remap_at_180 r), ?(remap_at_270 r);
    rewrite ?remap_at_90, ?remap_at_180, ?remap_at_270;
    unfold remap_90, remap_180, remap_270; rewrite ?Hw, ?Hh;
    repeat f_equal; ring.
Qed.

Lemma remap_composition_witness :
  let r := mkRect (lit 10 1) (lit 10 1) (lit 110 1) (lit 60 1) in
  let r' := mkRect (lit 0 1) (lit 0 1) (lit 50 1) (lit 100 1) in
  let w := wordZ 20 5 45 15 "cell" in
  frame_rotated_by 90 r r' ∧
  remap (lit 180 1) r' (remap (lit 90 1) r w)
  = remap (lit ((90 + 180) `mod` 360) 1) r w.
Proof.
  intros r r' w.
  assert (Hf : frame_rotated_by 90 r r') by (split; apply Qc_is_canon; reflexivity).
  assert (H90 : 90%Z ∈ [90; 180; 270]%Z) by (apply (bool_decide_unpack _); vm_compute; exact I).
  assert (H180 : 180%Z ∈ [90; 180; 270]%Z) by (apply (bool_decide_unpack _); vm_compute; exact I).
  exact (conj Hf (remap_composition 90 180 r r' w H90 H180 Hf)).
Defined.

(** ** Line reconstruction and text *)

Lemma string_length_app (a b : string) :
  String.length (a +:+ b) = (String.length a + String.length b)%nat.
Proof.
  induction a as [|ch a IH]; [done|].
  change (S (String.length (a +:+ b)) = S (String.length a + String.length b)).
  by rewrite IH.
Qed.

Lemma position_words_cons (w : word) (ws : list word) (y_gap : num) :
  position_words (w :: ws) y_gap
  = word_text w +:+ append_following y_gap (word_bottom w) ws.
Proof.
  destruct w as [[[[x0 y0] x1] y1] text].
  unfold position_words. apply position_words_loop.
Qed.

Lemma append_following_length (y_gap prev : num) (ws : list word) :
  String.length (append_following y_gap prev ws)
  = (sum_list (String.length ∘ word_text <$> ws) + length ws)%nat.
Proof.
  revert prev. induction ws as [|w ws IH]; intros prev; [done|].
  cbn [append_following fmap list_fmap sum_list sum_list_with length compose].
  rewrite string_length_app, IH.
  case_bool_decide; rewrite string_length_app; cbn [String.length newline id]; lia.
Qed.

(** X7. The reconstructed text holds the texts of all words and exactly
    one separator character between consecutive words: its length is the
    sum of the lengths of the texts plus the number of words less one. *)
Theorem position_words_length (ws : list word) (y_gap : num) :
  String.length (position_words ws y_gap)
  = (sum_list (String.length ∘ word_text <$> ws) + (length ws - 1))%nat.
Proof.
  destruct ws as [|w ws]; [done|].
  rewrite position_words_cons, string_length_app, append_following_length.
  cbn [fmap list_fmap sum_list sum_list_with length compose id]. lia.
Qed.

(** X8. [text()] reads the page-space positions: it is the line
    reconstruction, with the default gap, of the page's words that
    intersect the table's rect, in page order; the angle of a rotated
    table does not enter, so [text()] of a rotated table is [text()] of
    the plain table with the same attributes; a table that no word
    intersects has the empty text. *)
Theorem text_reads_page_space (self : table) :
  text self = position_words (selected (attrs self) false) y_gap_default
  ∧ text self = text (Plain (attrs self))
  ∧ (selected (attrs self) false = [] → text self = "").
Proof.
  unfold text. rewrite !text_positions_page_space. cbn [attrs].
  repeat apply conj; [done | done |]. by intros ->.
Qed.

Lemma text_reads_page_space_witness :
  let empty := Rotated (mkRotatedCroppedTable
                          (CroppedTable_init (mkPage "a.pdf" 0 [])
                             (OfTuple (lit 0 1, lit 0 1, lit 5 1, lit 5 1))
                             (lit 95 100) 1)
                          (lit 90 1)) in
  selected (attrs empty) false = [] ∧ text empty = "".
Proof.
  intros empty.
  exact (conj eq_refl (proj2 (proj2 (text_reads_page_space empty)) eq_refl)).
Defined.

Lemma string_concat_cons (sep x : string) (xs : list string) :
  String.concat sep (x :: xs)
  = x +:+ match xs with [] => "" | _ :: _ => sep +:+ String.concat sep xs end.
Proof. destruct xs; [by rewrite string_app_empty_r | done]. Qed.

Lemma append_following_uniform (sep : string) (y_gap : num) (ws : list word) :
  ∀ prev,
    (∀ prev' w, w ∈ ws →
       (prev' = prev ∨ ∃ w', w' ∈ ws ∧ prev' = word_bottom w') →
       (if bool_decide (y_gap ≤ Qcabs (word_bottom w - prev'))
        then newline +:+ word_text w else " " +:+ word_text w)
       = sep +:+ word_text w) →
    append_following y_gap prev ws
    = match ws with
      | [] => ""
      | _ :: _ => sep +:+ String.concat sep (word_text <$> ws)
      end.
Proof.
  induction ws as [|w ws IH]; intros prev Hsep; [done|].
  cbn [append_following fmap list_fmap].
  rewrite (Hsep prev w) by (by left || by left).
  rewrite (IH (word_bottom w)).
  - rewrite string_concat_cons, string_app_assoc. by destruct ws.
  - intros prev' w' Hw' Hprev. apply Hsep; [by right|].
    right. destruct Hprev as [->|(w'' & Hw'' & ->)].
    + exists w. split; [by left | done].
    + exists w''. split; [by right | done].
Qed.

(** X9. With a positive [y_gap], words that all share one bottom edge are
    put on one line, their texts joined by single spaces; with a
    [y_gap] of zero or less every word starts a new line, whatever the
    boxes are. *)
Theorem position_words_one_separator (ws : list word) (y_gap : num) :
  (0 < y_gap →
   (∀ w w', w ∈ ws → w' ∈ ws → word_bottom w = word_bottom w') →
   position_words ws y_gap = String.concat " " (word_text <$> ws))
  ∧
  (y_gap ≤ 0 →
   position_words ws y_gap = String.concat newline (word_text <$> ws)).
Proof.
  split.
  - intros Hgap Hsame. destruct ws as [|w ws]; [done|].
    rewrite position_words_cons.
    rewrite (append_following_uniform " ").
    + cbn [fmap list_fmap]. rewrite string_concat_cons. by destruct ws.
    + intros prev' w' Hw' Hprev.
      assert (Heq : word_bottom w' = prev').
      { destruct Hprev as [->|(w'' & Hw'' & ->)]; apply Hsame;
          (by left) || (by right). }
      rewrite bool_decide_eq_false_2; [done|].
      rewrite Heq. replace (prev' - prev') with 0 by ring.
      rewrite Qcabs_pos by done. by apply Qclt_not_le.
  - intros Hgap. destruct ws as [|w ws]; [done|].
    rewrite position_words_cons.
    rewrite (append_following_uniform newline).
    + cbn [fmap list_fmap]. rewrite string_concat_cons. by destruct ws.
    + intros prev' w' _ _. rewrite bool_decide_eq_true_2; [done|].
      etrans; [exact Hgap | apply Qcabs_nonneg].
Qed.

Lemma position_words_one_separator_witness :
  let ws := [wordZ 0 0 10 10 "A"; wordZ 12 2 20 10 "B"; wordZ 25 0 30 10 "C"] in
  (0 < lit 3 1 ∧ position_words ws (lit 3 1) = "A B C") ∧
  (lit (-1) 1 ≤ 0 ∧
   position_words ws (lit (-1) 1) = "A" +:+ newline +:+ "B" +:+ newline +:+ "C").
Proof.
  intros ws.
  assert (Hpos : 0 < lit 3 1) by (vm_compute; reflexivity).
  assert (Hneg : lit (-1) 1 ≤ 0) by (vm_compute; discriminate).
  assert (Hsame : ∀ w w', w ∈ ws → w' ∈ ws → word_bottom w = word_bottom w').
  { intros w w' Hw Hw'. unfold ws in *.
    rewrite !elem_of_cons, elem_of_nil in Hw, Hw'.
    destruct Hw as [->|[->|[->|[]]]]; destruct Hw' as [->|[->|[->|[]]]];
      reflexivity. }
  exact (conj
    (conj Hpos (proj1 (position_words_one_separator ws (lit 3 1)) Hpos Hsame))
    (conj Hneg (proj2 (position_words_one_separator ws (lit (-1) 1)) Hneg))).
Defined.

(** ** Calibration word height, further *)

Lemma median_is_mean_of_two (l : list num) :
  l ≠ [] → ∃ x y, x ∈ l ∧ y ∈ l ∧ median l = (x + y) / lit 2 1.
Proof.
  intros Hne. unfold median.
  assert (Hlen : (0 < length (merge_sort Qcle l))%nat).
  { rewrite merge_sort_Permutation. destruct l; [done | simpl; lia]. }
  pose proof (Nat.div_lt _ 2 Hlen ltac:(lia)) as Hmid.
  assert (Hin : ∀ i, (i < length (merge_sort Qcle l))%nat →
                     nth i (merge_sort Qcle l) 0 ∈ l).
  { intros i Hi. destruct (lookup_lt_is_Some_2 _ i Hi) as [x Hx].
    rewrite (nth_lookup_Some _ _ _ _ Hx).
    rewrite <- (merge_sort_Permutation Qcle l). by eapply list_elem_of_lookup_2. }
  destruct (Nat.even _).
  - eexists _, _. split; [|split; [|done]]; apply Hin; lia.
  - eexists _, _. split; [|split]; [by apply Hin | by apply Hin |].
    set (x := nth _ _ _). unfold Qcdiv.
    apply Qc_is_canon. unfold Qcplus, Qcmult, Qcinv, lit. cbn [this Q2Qc].
    rewrite !Qred_correct. field.
Qed.

Lemma median_bounds (l : list num) (a b : num) :
  l ≠ [] →
  (Forall (λ h, a < h) l → a < median l) ∧
  (Forall (λ h, h ≤ b) l → median l ≤ b).
Proof.
  intros Hne. destruct (median_is_mean_of_two l Hne) as (x & y & Hx & Hy & ->).
  split; intros HF; rewrite Forall_forall in HF;
    pose proof (HF x Hx); pose proof (HF y Hy); qc_lra.
Qed.

Lemma Qc_scale_lt (a b : num) : a < b → lit 95 100 * a < lit 95 100 * b.
Proof. intros. qc_lra. Qed.

Lemma Qc_scale_le (a b : num) : a ≤ b → lit 95 100 * a ≤ lit 95 100 * b.
Proof. intros. qc_lra. Qed.

(** X10. A number returned by a first call of [predicted_word_height]
    with threshold t is positive, greater than 0.95 × t, and at most
    0.95 × any bound on the heights of the table's offset-removed word
    boxes. *)
Theorem predicted_word_height_bounds (self self' : table) (t v : num) :
  _word_height (attrs self) = None →
  predicted_word_height self t = (Return (fl v), self') →
  0 < v ∧ lit 95 100 * t < v ∧
  ∀ b, (∀ w, w ∈ text_positions self true false → word_height w ≤ b) →
       v ≤ lit 95 100 * b.
Proof.
  intros Hnone Hcall. rewrite predicted_word_height_uncached in Hcall by done.
  destruct (qualifying_heights self t) as [|h hs] eqn:Hq; [simplify_eq|].
  cbn zeta in Hcall. case_bool_decide as Hpos; simplify_eq.
  destruct (median_bounds (h :: hs) t 0 ltac:(done)) as [Hgt _].
  repeat apply conj; [done | |].
  - apply Qc_scale_lt, Hgt. rewrite <- Hq. apply Forall_forall.
    intros x Hx. unfold qualifying_heights in Hx.
    by apply list_elem_of_filter in Hx as [Hx _].
  - intros b Hb.
    destruct (median_bounds (h :: hs) t b ltac:(done)) as [_ Hle].
    apply Qc_scale_le, Hle. rewrite <- Hq. apply Forall_forall.
    intros x Hx. unfold qualifying_heights in Hx.
    apply list_elem_of_filter in Hx as [_ Hx].
    apply list_elem_of_fmap in Hx as (w & -> & Hw). by apply Hb.
Qed.

Lemma predicted_word_height_bounds_witness :
  let first := predicted_word_height sample_table (lit 1 10) in
  let v := match fst first with Return (fl v) => v | _ => 0 end in
  _word_height (attrs sample_table) = None ∧
  first = (Return (fl v), snd first) ∧
  0 < v ∧ lit 95 100 * lit 1 10 < v.
Proof.
  intros first v.
  assert (Hfirst : first = (Return (fl v), snd first)) by (vm_compute; reflexivity).
  destruct (predicted_word_height_bounds sample_table (snd first) (lit 1 10) v
              eq_refl Hfirst) as (Hpos & Hgt & _).
  exact (conj eq_refl (conj Hfirst (conj Hpos Hgt))).
Defined.

Lemma median_Permutation (l l' : list num) : l ≡ₚ l' → median l = median l'.
Proof.
  intros Hperm. unfold median.
  assert (merge_sort Qcle l = merge_sort Qcle l') as ->; [|done].
  apply (Sorted_unique Qcle); try apply Sorted_merge_sort; try apply _.
  by rewrite !merge_sort_Permutation.
Qed.

(** X11. The order in which the page lists its words does not enter the
    predicted word height: two tables without a cached value whose
    offset-removed text positions are the same up to order get the same
    outcome for every threshold. *)
Theorem predicted_word_height_order_independent (self1 self2 : table) (t : num) :
  _word_height (attrs self1) = None →
  _word_height (attrs self2) = None →
  text_positions self1 true false ≡ₚ text_positions self2 true false →
  fst (predicted_word_height self1 t) = fst (predicted_word_height self2 t).
Proof.
  intros H1 H2 Hperm. rewrite !predicted_word_height_uncached by done.
  assert (Hq : qualifying_heights self1 t ≡ₚ qualifying_heights self2 t).
  { unfold qualifying_heights. by rewrite Hperm. }
  rewrite (median_Permutation _ _ Hq).
  destruct (qualifying_heights self1 t) as [|h1 hs1],
           (qualifying_heights self2 t) as [|h2 hs2]; cbn zeta.
  - done.
  - by apply Permutation_nil_cons in Hq.
  - symmetry in Hq. by apply Permutation_nil_cons in Hq.
  - by case_bool_decide.
Qed.

Lemma predicted_word_height_order_independent_witness :
  let reversed :=
    Plain (CroppedTable_init
             (mkPage "sample.pdf" 0 (reverse (get_positions_and_text sample_page)))
             (OfTuple (lit 0 1, lit 0 1, lit 200 1, lit 200 1)) (lit 95 100) 0) in
  text_positions sample_table true false ≡ₚ text_positions reversed true false ∧
  fst (predicted_word_height sample_table (lit 1 10))
  = fst (predicted_word_height reversed (lit 1 10)).
Proof.
  intros reversed.
  assert (Hperm : text_positions sample_table true false
                  ≡ₚ text_positions reversed true false).
  { change (text_positions reversed true false)
      with (reverse (text_positions sample_table true false)).
    by rewrite reverse_Permutation. }
  exact (conj Hperm
    (predicted_word_height_order_independent sample_table reversed (lit 1 10)
       eq_refl eq_refl Hperm)).
Defined.

Lemma same_region_set_word_height (self : table) (h : float) :
  same_region self (set_word_height self h) ∧
  _captions (attrs (set_word_height self h)) = _captions (attrs self).
Proof. by destruct self. Qed.

Lemma same_region_refl (self : table) : same_region self self.
Proof. by destruct self. Qed.

(** X12. When a first call of [predicted_word_height] fails, it fails
    its positivity assertion after it has cached the value 0.95 × median,
    which is then zero or negative; from then on every call, whatever
    its threshold, fails the non-zero assertion if that value is zero
    and returns the negative value otherwise. *)
Theorem predicted_word_height_failure_is_cached (self self' : table) (t : num) (e : exn) :
  _word_height (attrs self) = None →
  predicted_word_height self t = (Raise e, self') →
  e = AssertionError ∧
  ∃ h, h ≤ 0 ∧
       h = lit 95 100 * median (qualifying_heights self t) ∧
       _word_height (attrs self') = Some (fl h) ∧
       ∀ t', predicted_word_height self' t'
             = (if bool_decide (h = 0) then Raise AssertionError else Return (fl h),
                self').
Proof.
  intros Hnone Hcall. rewrite predicted_word_height_uncached in Hcall by done.
  destruct (qualifying_heights self t) as [|h0 hs]; [simplify_eq|].
  cbn zeta in Hcall. case_bool_decide as Hpos; simplify_eq.
  split; [done|]. eexists. repeat apply conj; [|done| |].
  - by apply Qcnot_lt_le.
  - by rewrite word_height_set_get.
  - intros t'. unfold predicted_word_height. rewrite word_height_set_get.
    cbn [float_ne_0]. by repeat case_bool_decide.
Qed.

Lemma predicted_word_height_failure_is_cached_witness :
  let first := predicted_word_height flat_table (lit (-1) 1) in
  _word_height (attrs flat_table) = None ∧
  first = (Raise AssertionError, snd first) ∧
  predicted_word_height (snd first) (lit 1 10) = (Raise AssertionError, snd first).
Proof.
  intros first.
  assert (Hfirst : first = (Raise AssertionError, snd first))
    by (vm_compute; reflexivity).
  destruct (predicted_word_height_failure_is_cached flat_table (snd first)
              (lit (-1) 1) AssertionError eq_refl Hfirst)
    as (_ & h & _ & Hh & _ & Hlater).
  assert (Hzero : h = 0) by (rewrite Hh; by apply Qc_is_canon).
  specialize (Hlater (lit 1 10)).
  rewrite (bool_decide_eq_true_2 _ Hzero) in Hlater.
  exact (conj eq_refl (conj Hfirst Hlater)).
Defined.

(** X13. Whatever its outcome, [predicted_word_height] writes the
    word-height cache only: class, page, rect, confidence score, label,
    angle and the caption cache of the table stay as they were. *)
Theorem predicted_word_height_keeps_region (self : table) (t : num) :
  same_region self (snd (predicted_word_height self t)) ∧
  _captions (attrs (snd (predicted_word_height self t))) = _captions (attrs self).
Proof.
  unfold predicted_word_height.
  destruct (_word_height (attrs self)) as [h|].
  - destruct (float_ne_0 h); cbn [snd]; split; [apply same_region_refl | done | apply same_region_refl | done].
  - destruct (collect_word_heights _ _); cbn zeta; [|case_bool_decide];
      cbn [snd]; apply same_region_set_word_height.
Qed.

(** ** Captions, further *)

Lemma same_region_set_captions (self : table) (c : list string) :
  same_region self (set_captions self c) ∧
  _word_height (attrs (set_captions self c)) = _word_height (attrs self) ∧
  _captions (attrs (set_captions self c)) = Some c.
Proof. by destruct self. Qed.

(** X14. On a table whose caption cache is unset or empty (as after
    construction, and after deserializing a record without captions),
    [captions] with any arguments calls the caption finder exactly once,
    with the table and the arguments given, returns what the finder
    returns and stores it in the cache. *)
Theorem captions_without_cache {Margin Kwargs : Type}
    (_find_captions : table → option Margin → num → Kwargs → list string)
    (self : table) (margin : option Margin) (line_spacing : num) (kwargs : Kwargs) :
  _captions (attrs self) = None ∨ _captions (attrs self) = Some [] →
  captions _find_captions self margin line_spacing kwargs
  = (_find_captions self margin line_spacing kwargs,
     set_captions self (_find_captions self margin line_spacing kwargs),
     [mkCall self margin line_spacing kwargs]).
Proof. intros [Hc|Hc]; unfold captions; by rewrite Hc. Qed.

Lemma captions_without_cache_witness :
  let finder := λ (_ : table) (_ : option num) (_ : num) (_ : unit),
                  ["Table 2"; "Source: survey"] in
  (_captions (attrs sample_table) = None ∨ _captions (attrs sample_table) = Some []) ∧
  captions finder sample_table None line_spacing_default ()
  = (["Table 2"; "Source: survey"],
     set_captions sample_table ["Table 2"; "Source: survey"],
     [mkCall sample_table None line_spacing_default ()]).
Proof.
  intros finder.
  exact (conj (or_introl eq_refl)
    (captions_without_cache finder sample_table None line_spacing_default ()
       (or_introl eq_refl))).
Defined.

(** X15. A call of [captions] with a margin and with a line spacing
    other than 2.5 never uses the cache: it calls the finder once and
    overwrites the cache with the result, whatever was cached. *)
Theorem captions_both_nondefault_recompute {Margin Kwargs : Type}
    (_find_captions : table → option Margin → num → Kwargs → list string)
    (self : table) (margin : Margin) (line_spacing : num) (kwargs : Kwargs) :
  line_spacing ≠ line_spacing_default →
  captions _find_captions self (Some margin) line_spacing kwargs
  = (_find_captions self (Some margin) line_spacing kwargs,
     set_captions self (_find_captions self (Some margin) line_spacing kwargs),
     [mkCall self (Some margin) line_spacing kwargs]).
Proof.
  intros Hls. unfold captions.
  rewrite (bool_decide_eq_false_2 (line_spacing = lit 25 10)).
  - by rewrite andb_false_r.
  - intros Heq. apply Hls. rewrite Heq. by apply Qc_is_canon.
Qed.

Lemma captions_both_nondefault_recompute_witness :
  let finder := λ (_ : table) (_ : option num) (_ : num) (_ : unit),
                  ["Table 2"; "Source: survey"] in
  lit 3 1 ≠ line_spacing_default ∧
  captions finder captioned_table (Some (lit 10 1)) (lit 3 1) ()
  = (["Table 2"; "Source: survey"],
     set_captions captioned_table ["Table 2"; "Source: survey"],
     [mkCall captioned_table (Some (lit 10 1)) (lit 3 1) ()]).
Proof.
  intros finder.
  assert (Hls : lit 3 1 ≠ line_spacing_default)
    by (intros Heq; apply Q2Qc_eq_iff in Heq; discriminate).
  exact (conj Hls
    (captions_both_nondefault_recompute finder captioned_table (lit 10 1) (lit 3 1) () Hls)).
Defined.

(** X16. Every call of [captions] leaves its result in the cache, also a
    call with non-default arguments: when a call returns a non-empty
    result, the next call with the default arguments returns that same
    result and does not call the finder. *)
Theorem captions_result_is_cached {Margin Kwargs : Type}
    (_find_captions : table → option Margin → num → Kwargs → list string)
    (self self' : table) (margin : option Margin) (line_spacing : num)
    (kwargs kwargs' : Kwargs) (c : list string)
    (calls : list (finder_call Margin Kwargs)) :
  captions _find_captions self margin line_spacing kwargs = (c, self', calls) →
  c ≠ [] →
  _captions (attrs self') = Some c ∧
  captions _find_captions self' None line_spacing_default kwargs' = (c, self', []).
Proof.
  intros Hcall Hc.
  assert (Hcache : _captions (attrs self') = Some c).
  { unfold captions in Hcall.
    destruct (captions_truthy (_captions (attrs self))) eqn:Htruthy;
      [destruct (_ || _) eqn:Hguard|]; cbn [andb] in Hcall; simplify_eq;
      try apply same_region_set_captions.
    by destruct (_captions (attrs self')) as [[|]|]. }
  split; [done|]. unfold captions. rewrite Hcache.
  destruct c; [done|]. done.
Qed.

Lemma captions_result_is_cached_witness :
  let finder := λ (_ : table) (_ : option num) (_ : num) (_ : unit),
                  ["Table 2"; "Source: survey"] in
  let first := captions finder sample_table (Some (lit 10 1)) (lit 3 1) () in
  first = (["Table 2"; "Source: survey"], snd (fst first), snd first) ∧
  ["Table 2"; "Source: survey"] ≠ [] ∧
  captions finder (snd (fst first)) None line_spacing_default ()
  = (["Table 2"; "Source: survey"], snd (fst first), []).
Proof.
  intros finder first.
  assert (Hfirst : first = (["Table 2"; "Source: survey"], snd (fst first), snd first))
    by reflexivity.
  assert (Hne : ["Table 2"; "Source: survey"] ≠ ([] : list string)) by discriminate.
  exact (conj Hfirst (conj Hne
    (proj2 (captions_result_is_cached finder sample_table (snd (fst first))
              (Some (lit 10 1)) (lit 3 1) () () _ (snd first) Hfirst Hne)))).
Defined.

(** X17. Whatever its arguments, [captions] writes the caption cache
    only: class, page, rect, confidence score, label, angle and the
    word-height cache of the table stay as they were, and the finder is
    called at most once. *)
Theorem captions_keeps_region {Margin Kwargs : Type}
    (_find_captions : table → option Margin → num → Kwargs → list string)
    (self : table) (margin : option Margin) (line_spacing : num) (kwargs : Kwargs) :
  let '(c, self', calls) :=
    captions _find_captions self margin line_spacing kwargs in
  same_region self self' ∧
  _word_height (attrs self') = _word_height (attrs self) ∧
  (length calls ≤ 1)%nat.
Proof.
  unfold captions. destruct (_ && _).
  - split; [apply same_region_refl | split; [done | cbn; lia]].
  - split; [apply same_region_set_captions |
            split; [apply same_region_set_captions | cbn; lia]].
Qed.

(** ** Serialization, further *)

(** X18. A record without one of the required fields is refused with a
    [KeyError] that names the first missing one in the order 'bbox',
    'confidence_score', 'label', with or without 'angle', whatever the
    other entries are. *)
Theorem from_dict_missing_key (d : gmap string value) (page : BasePage) :
  (d !! "bbox" = None →
   CroppedTable_from_dict d page = Raise (KeyError "bbox"))
  ∧ (is_Some (d !! "bbox") → d !! "confidence_score" = None →
     CroppedTable_from_dict d page = Raise (KeyError "confidence_score"))
  ∧ (is_Some (d !! "bbox") → is_Some (d !! "confidence_score") →
     d !! "label" = None →
     CroppedTable_from_dict d page = Raise (KeyError "label")).
Proof.
  unfold CroppedTable_from_dict, RotatedCroppedTable_from_dict,
    CroppedTable_from_dict_plain, getitem.
  repeat apply conj.
  - intros ->. by repeat case_bool_decide.
  - intros [vb ->] ->. by repeat case_bool_decide.
  - intros [vb ->] [vs ->] ->.
    destruct (d !! "angle") as [va|]; by repeat case_bool_decide.
Qed.

Lemma from_dict_missing_key_witness :
  let d : gmap string value :=
    <["label" := VInt 0]> (<["bbox" := VBBox (lit 0 1, lit 0 1, lit 5 1, lit 5 1)]> ∅) in
  let page := mkPage "a.pdf" 0 [] in
  is_Some (d !! "bbox") ∧ d !! "confidence_score" = None ∧
  CroppedTable_from_dict d page = Raise (KeyError "confidence_score").
Proof.
  intros d page.
  assert (Hb : is_Some (d !! "bbox")) by (eexists; by simplify_map_eq).
  assert (Hs : d !! "confidence_score" = None) by by simplify_map_eq.
  exact (conj Hb (conj Hs
    (proj1 (proj2 (from_dict_missing_key d page)) Hb Hs))).
Defined.

(** X19. A record that has all fields but whose 'angle' is a number
    other than 0, 90, 180 and 270 is refused with the constructor's
    [ValueError]; no table is built from it. *)
Theorem from_dict_unsupported_angle (d : gmap string value) (page : BasePage)
    (bbox : bbox_t) (score angle : num) (label : Z) :
  d !! "bbox" = Some (VBBox bbox) →
  d !! "confidence_score" = Some (VNum score) →
  d !! "label" = Some (VInt label) →
  d !! "angle" = Some (VNum angle) →
  angle ∉ [lit 0 1; lit 90 1; lit 180 1; lit 270 1] →
  CroppedTable_from_dict d page
  = Raise (ValueError "Only 0, 90, 180, 270 are supported.")
  ∧ RotatedCroppedTable_from_dict d page
  = Raise (ValueError "Only 0, 90, 180, 270 are supported.").
Proof.
  intros Hb Hs Hl Ha Hangle.
  rewrite RotatedCroppedTable_from_dict_dispatch.
  assert (CroppedTable_from_dict d page
          = Raise (ValueError "Only 0, 90, 180, 270 are supported.")); [|done].
  unfold CroppedTable_from_dict, RotatedCroppedTable_from_dict, getitem.
  rewrite Ha, Hb, Hs, Hl; cbn.
  unfold RotatedCroppedTable_init, supported_angles.
  by rewrite bool_decide_eq_true_2.
Qed.

Lemma from_dict_unsupported_angle_witness :
  let d : gmap string value :=
    <["angle" := VNum (lit 45 1)]>
    (<["label" := VInt 1]>
    (<["confidence_score" := VNum (lit 95 100)]>
    (<["bbox" := VBBox (lit 0 1, lit 0 1, lit 5 1, lit 5 1)]> ∅))) in
  let page := mkPage "a.pdf" 0 [] in
  (lit 45 1 ∉ [lit 0 1; lit 90 1; lit 180 1; lit 270 1]) ∧
  CroppedTable_from_dict d page
  = Raise (ValueError "Only 0, 90, 180, 270 are supported.").
Proof.
  intros d page.
  assert (H45 : lit 45 1 ∉ [lit 0 1; lit 90 1; lit 180 1; lit 270 1])
    by (apply (bool_decide_unpack _); vm_compute; exact I).
  exact (conj H45
    (proj1 (from_dict_unsupported_angle d page _ _ _ _
              ltac:(by simplify_map_eq) ltac:(by simplify_map_eq)
              ltac:(by simplify_map_eq) ltac:(by simplify_map_eq) H45))).
Defined.

Lemma lookup_to_dict_page (self : table) :
  to_dict self !! "filename" = Some (VStr (get_filename (page (attrs self)))) ∧
  to_dict self !! "page_no" = Some (VInt (page_number (page (attrs self)))).
Proof.
  destruct self as [t|r]; cbn [to_dict attrs];
    unfold RotatedCroppedTable_to_dict, CroppedTable_to_dict;
    split; by simplify_map_eq.
Qed.

(** X20. The record of a table has exactly the keys 'filename',
    'page_no', 'bbox', 'confidence_score' and 'label', and 'angle' as
    well exactly for a rotated table; file name and page number are
    those of the table's page, and neither cache is written out. *)
Theorem to_dict_keys (self : table) :
  dom (to_dict self)
  = ({["filename"; "page_no"; "bbox"; "confidence_score"; "label"]}
     ∪ (if is_rotated self then {["angle"]} else ∅) : gset string)
  ∧ to_dict self !! "filename" = Some (VStr (get_filename (page (attrs self))))
  ∧ to_dict self !! "page_no" = Some (VInt (page_number (page (attrs self))))
  ∧ to_dict self !! "captions" = None.
Proof.
  destruct self as [t|r]; cbn [to_dict attrs is_rotated];
    unfold RotatedCroppedTable_to_dict, CroppedTable_to_dict;
    repeat apply conj; try (by simplify_map_eq);
    rewrite !dom_insert_L, dom_empty_L; set_solver.
Qed.

Lemma Rect_bbox_of_bbox (b : bbox_t) : Rect_bbox (Rect_of_bbox b) = b.
Proof. by destruct b as [[[x0 y0] x1] y1]. Qed.

Lemma bind_Return_inv {A B} (m : outcome A) (k : A → outcome B) (y : B) :
  m ≫= k = Return y → ∃ x, m = Return x ∧ k x = Return y.
Proof. destruct m as [x|e]; [by exists x | done]. Qed.

Lemma getitem_Return_inv d key v : getitem d key = Return v → d !! key = Some v.
Proof. unfold getitem. destruct (d !! key); by intros [= ->]. Qed.

Lemma as_bbox_Return_inv v b : as_bbox v = Return b → v = VBBox b.
Proof. destruct v; by intros [= ->]. Qed.

Lemma as_int_Return_inv v z : as_int v = Return z → v = VInt z.
Proof. destruct v; by intros [= ->]. Qed.

Ltac invert_binds H :=
  repeat match type of H with
         | _ ≫= _ = Return _ =>
             let H' := fresh "Hstep" in
             apply bind_Return_inv in H as (? & H' & H)
         end.

Lemma from_dict_Return_inv (d : gmap string value) (page : BasePage) (t : table) :
  CroppedTable_from_dict d page = Return t →
  ∃ bbox vscore score label c,
    d !! "bbox" = Some (VBBox bbox) ∧
    d !! "confidence_score" = Some vscore ∧ as_num vscore = Return score ∧
    d !! "label" = Some (VInt label) ∧
    get_captions d = Return c ∧
    attrs t = {| page := page; rect := Rect_of_bbox bbox;
                 confidence_score := score; label := label;
                 _word_height := None; _captions := Some c |} ∧
    match t with
    | Plain _ => d !! "angle" = None
    | Rotated r =>
        ∃ vangle, d !! "angle" = Some vangle ∧ as_num vangle = Return (angle r) ∧
                  angle r ∈ supported_angles
    end.
Proof.
  unfold CroppedTable_from_dict, RotatedCroppedTable_from_dict,
    CroppedTable_from_dict_plain.
  intros Hret. destruct (d !! "angle") as [va|] eqn:Ha.
  - rewrite bool_decide_eq_true_2, bool_decide_eq_false_2 in Hret by done.
    invert_binds Hret. injection Hret as <-.
    repeat match goal with
           | H : getitem _ _ = Return _ |- _ => apply getitem_Return_inv in H
           | H : as_bbox _ = Return _ |- _ => apply as_bbox_Return_inv in H
           | H : as_int _ = Return _ |- _ => apply as_int_Return_inv in H
           end.
    simplify_eq. unfold RotatedCroppedTable_init in *.
    case_bool_decide as Hin; simplify_eq.
    cbn [attrs super assign_captions angle].
    eexists _, _, _, _, _. repeat apply conj; try done.
    eexists. repeat apply conj; try done; by apply dec_stable in Hin.
  - rewrite bool_decide_eq_false_2 in Hret by (by intros []).
    invert_binds Hret. injection Hret as <-.
    repeat match goal with
           | H : getitem _ _ = Return _ |- _ => apply getitem_Return_inv in H
           | H : as_bbox _ = Return _ |- _ => apply as_bbox_Return_inv in H
           | H : as_int _ = Return _ |- _ => apply as_int_Return_inv in H
           end.
    simplify_eq. cbn [attrs assign_captions].
    eexists _, _, _, _, _. by repeat apply conj.
Qed.

(** X21. Whenever deserialization returns a table, serializing that table
    gives back the record's 'bbox' and 'label' entries and the numbers of
    its 'confidence_score' and 'angle' entries, while 'filename' and
    'page_no' are those of the page passed in, whatever the record said;
    the table has no cached word height, and its captions are the
    record's 'captions', or the empty list. *)
Theorem from_dict_then_to_dict (d : gmap string value) (page : BasePage) (t : table) :
  CroppedTable_from_dict d page = Return t →
  to_dict t !! "bbox" = d !! "bbox"
  ∧ to_dict t !! "label" = d !! "label"
  ∧ (as_num <$> to_dict t !! "confidence_score")
    = (as_num <$> d !! "confidence_score")
  ∧ (as_num <$> to_dict t !! "angle") = (as_num <$> d !! "angle")
  ∧ to_dict t !! "filename" = Some (VStr (get_filename page))
  ∧ to_dict t !! "page_no" = Some (VInt (page_number page))
  ∧ _word_height (attrs t) = None
  ∧ Return (default [] (_captions (attrs t))) = get_captions d.
Proof.
  intros Hret.
  destruct (from_dict_Return_inv d page t Hret)
    as (bbox & vs & s & l & c & Hb & Hs & Hvs & Hl & Hc & Hattrs & Hangle).
  destruct (lookup_to_dict t) as (Htb & Hts & Htl & _ & Hta).
  destruct (lookup_to_dict_page t) as (Htf & Htp).
  rewrite Htb, Hts, Htl, Hta, Htf, Htp, Hattrs, Hb, Hs, Hl, Hc.
  cbn.
  rewrite Rect_bbox_of_bbox, Hvs.
  repeat apply conj; try done.
  destruct t as [t|r].
  - by rewrite Hangle.
  - destruct Hangle as (va & -> & Hva & _). cbn. by rewrite Hva.
Qed.

Lemma from_dict_then_to_dict_witness :
  let d : gmap string value :=
    <["page_no" := VInt 7]>
    (<["filename" := VStr "old.pdf"]>
    (<["label" := VInt 0]>
    (<["confidence_score" := VNum (lit 95 100)]>
    (<["bbox" := VBBox (lit 0 1, lit 0 1, lit 5 1, lit 5 1)]> ∅)))) in
  let page := mkPage "new.pdf" 2 [] in
  let t := Plain (assign_captions
                    (CroppedTable_init page
                       (OfTuple (lit 0 1, lit 0 1, lit 5 1, lit 5 1)) (lit 95 100) 0)
                    []) in
  CroppedTable_from_dict d page = Return t ∧
  to_dict t !! "filename" = Some (VStr "new.pdf") ∧
  to_dict t !! "page_no" = Some (VInt 2).
Proof.
  intros d page t.
  assert (Hret : CroppedTable_from_dict d page = Return t)
    by (apply from_dict_plain_record; by simplify_map_eq).
  destruct (from_dict_then_to_dict d page t Hret) as (_ & _ & _ & _ & Hf & Hp & _).
  exact (conj Hret (conj Hf Hp)).
Defined.

Lemma from_dict_to_dict (t : table) :
  constructed t →
  CroppedTable_from_dict (to_dict t) (page (attrs t))
  = Return (with_attrs t
              {| page := page (attrs t); rect := rect (attrs t);
                 confidence_score := confidence_score (attrs t);
                 label := label (attrs t);
                 _word_height := None; _captions := Some [] |}).
Proof.
  intros Ht. destruct (lookup_to_dict t) as (Hb & Hs & Hl & Hc & Ha).
  destruct t as [t|r]; cbn [attrs with_attrs] in *.
  - rewrite (from_dict_plain_record _ _ _ _ _ Ha Hb Hs Hl Hc).
    by rewrite Rect_of_bbox_bbox.
  - rewrite (from_dict_rotated_record _ _ _ _ _ _ Ha Ht Hb Hs Hl Hc).
    by rewrite Rect_of_bbox_bbox.
Qed.

(** X22. Serialization does not carry the caches: the table read back
    from the record of a constructed table has no cached word height and
    an empty caption cache, whatever the original had cached, so its
    first [captions] call, with any arguments, calls the caption finder. *)
Theorem reload_forgets_caches {Margin Kwargs : Type}
    (_find_captions : table → option Margin → num → Kwargs → list string)
    (t : table) (margin : option Margin) (line_spacing : num) (kwargs : Kwargs) :
  constructed t →
  ∃ t',
    CroppedTable_from_dict (to_dict t) (page (attrs t)) = Return t' ∧
    _word_height (attrs t') = None ∧
    _captions (attrs t') = Some [] ∧
    captions _find_captions t' margin line_spacing kwargs
    = (_find_captions t' margin line_spacing kwargs,
       set_captions t' (_find_captions t' margin line_spacing kwargs),
       [mkCall t' margin line_spacing kwargs]).
Proof.
  intros Ht. eexists. split; [by apply from_dict_to_dict|].
  assert (Hattrs : ∀ c, attrs (with_attrs t c) = c) by (by destruct t).
  rewrite !Hattrs. cbn [_word_height _captions].
  repeat apply conj; try done.
  unfold captions. by rewrite Hattrs.
Qed.

Lemma reload_forgets_caches_witness :
  let finder := λ (_ : table) (_ : option num) (_ : num) (_ : unit),
                  ["Table 2"; "Source: survey"] in
  constructed captioned_table ∧
  ∃ t',
    CroppedTable_from_dict (to_dict captioned_table) (page (attrs captioned_table))
    = Return t' ∧
    _word_height (attrs t') = None ∧
    _captions (attrs t') = Some [] ∧
    captions finder t' None line_spacing_default ()
    = (finder t' None line_spacing_default (),
       set_captions t' (finder t' None line_spacing_default ()),
       [mkCall t' None line_spacing_default ()]).
Proof.
  intros finder.
  exact (conj I
    (reload_forgets_caches finder captioned_table None line_spacing_default () I)).
Defined.

(** ** Detector orchestration, further *)

Lemma mapM_outcome_elem {A B} (f : A → outcome B) (l : list A) (k : list B) :
  mapM f l = Return k → ∀ y, y ∈ k → ∃ x, x ∈ l ∧ f x = Return y.
Proof.
  revert k. induction l as [|x l IH]; intros k Hk y Hy.
  - injection Hk as <-. by apply elem_of_nil in Hy.
  - cbn [mapM] in Hk. invert_binds Hk. injection Hk as <-.
    apply elem_of_cons in Hy as [->|Hy].
    + exists x. split; [by left | done].
    + destruct (IH _ ltac:(done) y Hy) as (x' & Hx' & Hfx').
      exists x'. split; [by right | done].
Qed.

(** X23. Every region that [extract] returns is as its constructor
    leaves it: it refers to the page given, both caches are unset, it is
    of the rotated class exactly when its label is 1, and then its angle
    is 90, a supported one. *)
Theorem extract_regions_fresh (page : BasePage) (results : detections)
    (tables : list table) :
  extract page results = Return tables →
  ∀ t, t ∈ tables →
    page_of t = page ∧
    _word_height (attrs t) = None ∧
    _captions (attrs t) = None ∧
    (is_rotated t = true ↔ label (attrs t) = 1%Z) ∧
    constructed t ∧
    match t with Plain _ => True | Rotated r => angle r = lit 90 1 end.
Proof.
  intros Hret t Ht.
  destruct (mapM_outcome_elem _ _ _ Hret t Ht) as (i & _ & Hi).
  cbn beta in Hi. invert_binds Hi.
  case_bool_decide as Hlabel.
  - invert_binds Hi. injection Hi as <-.
    unfold RotatedCroppedTable_init in *. case_bool_decide as Hin; simplify_eq.
    unfold page_of. cbn. repeat apply conj; try done;
      by apply dec_stable in Hin.
  - injection Hi as <-. unfold page_of. cbn.
    repeat apply conj; try done.
Qed.

Lemma extract_regions_fresh_witness :
  let page := mkPage "a.pdf" 0 [] in
  let results :=
    mkDetections [(lit 10 1, lit 10 1, lit 110 1, lit 60 1);
                  (lit 0 1, lit 0 1, lit 50 1, lit 100 1)]
                 [lit 95 100; lit 92 100] [0%Z; 1%Z] in
  let tables := match extract page results with Return l => l | Raise _ => [] end in
  let t := Rotated (mkRotatedCroppedTable
                      (CroppedTable_init page
                         (OfTuple (lit 0 1, lit 0 1, lit 50 1, lit 100 1))
                         (lit 92 100) 1)
                      (lit 90 1)) in
  extract page results = Return tables ∧ t ∈ tables ∧
  (is_rotated t = true ↔ label (attrs t) = 1%Z) ∧ constructed t.
Proof.
  intros page results tables t.
  assert (Hret : extract page results = Return tables) by reflexivity.
  assert (Ht : t ∈ tables) by (right; left).
  destruct (extract_regions_fresh page results tables Hret t Ht)
    as (_ & _ & _ & Hrot & Hc & _).
  exact (conj Hret (conj Ht (conj Hrot Hc))).
Defined.

Lemma mapM_outcome_Raise {A B} (f : A → outcome B) (l1 l2 : list A) (x : A)
    (g : A → B) (e : exn) :
  (∀ y, y ∈ l1 → f y = Return (g y)) →
  f x = Raise e →
  mapM f (l1 ++ x :: l2) = Raise e.
Proof.
  intros Hl1 Hx. induction l1 as [|y l1 IH]; cbn [app mapM].
  - by rewrite Hx.
  - rewrite (Hl1 y) by left. cbn [mbind outcome_bind].
    rewrite IH; [done|]. intros z Hz. apply Hl1. by right.
Qed.

Lemma extract_step_Return (page : BasePage) (results : detections) (i : nat)
    (bbox : bbox_t) (score : num) (label : Z) :
  boxes results !! i = Some bbox →
  scores results !! i = Some score →
  labels results !! i = Some label →
  (bbox ← index (boxes results) i;
   confidence_score ← index (scores results) i;
   label ← index (labels results) i;
   if bool_decide (label = 1%Z) then
     t ← RotatedCroppedTable_init page (OfTuple bbox) confidence_score
           (lit 90 1) label;
     mret (Rotated t)
   else
     mret (Plain (CroppedTable_init page (OfTuple bbox) confidence_score label)))
  = Return (default (Plain (CroppedTable_init page (OfTuple (0, 0, 0, 0)) 0 0))
              (region_at page results i)).
Proof.
  intros Hb Hs Hl. unfold region_at, index. rewrite Hb, Hs, Hl.
  cbn [mbind outcome_bind option_bind default].
  case_bool_decide; [|done].
  unfold RotatedCroppedTable_init.
  by rewrite bool_decide_eq_false_2 by (intros Hn; apply Hn; vm_compute; set_solver).
Qed.

(** X24. [extract] walks the indices of the boxes: it returns, one region
    per box, as soon as the scores and the labels are at least as many
    as the boxes (entries beyond the last box are not read), and it
    raises [IndexError] when either of them is shorter than the boxes;
    no boxes give the empty list. *)
Theorem extract_index_bounds (page : BasePage) (results : detections) :
  ((length (boxes results) ≤ length (scores results))%nat →
   (length (boxes results) ≤ length (labels results))%nat →
   ∃ tables, extract page results = Return tables ∧
             length tables = length (boxes results))
  ∧
  ((length (scores results) < length (boxes results))%nat ∨
   (length (labels results) < length (boxes results))%nat →
   extract page results = Raise IndexError)
  ∧
  (boxes results = [] → extract page results = Return []).
Proof.
  repeat apply conj.
  - intros Hs Hl. eexists. split.
    + unfold extract. apply mapM_outcome_Return.
      intros i Hi. apply elem_of_seq in Hi as [_ Hi]. cbn in Hi.
      destruct (lookup_lt_is_Some_2 (boxes results) i Hi) as [b Hb].
      destruct (lookup_lt_is_Some_2 (scores results) i ltac:(lia)) as [s Hsc].
      destruct (lookup_lt_is_Some_2 (labels results) i ltac:(lia)) as [l Hlb].
      by apply (extract_step_Return page results i b s l).
    + by rewrite length_fmap, length_seq.
  - intros Hshort.
    set (i0 := (length (scores results) `min` length (labels results))%nat).
    assert (Hi0 : (i0 < length (boxes results))%nat) by lia.
    unfold extract.
    replace (length (boxes results))
      with (i0 + S (length (boxes results) - i0 - 1))%nat by lia.
    rewrite seq_app. cbn [seq].
    apply mapM_outcome_Raise
      with (g := λ i, default (Plain (CroppedTable_init page (OfTuple (0, 0, 0, 0)) 0 0))
                        (region_at page results i)).
    + intros i Hi. apply elem_of_seq in Hi as [_ Hi]. cbn in Hi.
      destruct (lookup_lt_is_Some_2 (boxes results) i ltac:(lia)) as [b Hb].
      destruct (lookup_lt_is_Some_2 (scores results) i ltac:(lia)) as [s Hsc].
      destruct (lookup_lt_is_Some_2 (labels results) i ltac:(lia)) as [l Hlb].
      by apply (extract_step_Return page results i b s l).
    + cbn [Nat.add]. unfold index.
      destruct (lookup_lt_is_Some_2 (boxes results) i0 Hi0) as [b ->].
      cbn [mbind outcome_bind].
      destruct (scores results !! i0) as [s|] eqn:Hsc; [|done].
      cbn [mbind outcome_bind].
      apply lookup_lt_Some in Hsc.
      rewrite (lookup_ge_None_2 (labels results) i0) by lia. done.
  - intros Hnil. unfold extract. by rewrite Hnil.
Qed.

Lemma extract_index_bounds_witness :
  let page := mkPage "a.pdf" 0 [] in
  let results :=
    mkDetections [(lit 10 1, lit 10 1, lit 110 1, lit 60 1);
                  (lit 0 1, lit 0 1, lit 50 1, lit 100 1)]
                 [lit 95 100; lit 92 100] [0%Z] in
  ((length (scores results) < length (boxes results))%nat ∨
   (length (labels results) < length (boxes results))%nat) ∧
  extract page results = Raise IndexError.
Proof.
  intros page results.
  assert (Hshort : (length (scores results) < length (boxes results))%nat ∨
                   (length (labels results) < length (boxes results))%nat)
    by (right; cbn; lia).
  exact (conj Hshort
    (proj1 (proj2 (extract_index_bounds page results)) Hshort)).
Defined.

(** ** Images *)

Lemma is_intersecting_mono (a inner outer : Rect) :
  rect_contains outer inner →
  is_intersecting a inner = true → is_intersecting a outer = true.
Proof.
  unfold rect_contains, is_intersecting.
  rewrite !andb_true_iff, !bool_decide_eq_true.
  intros (? & ? & ? & ?) [[[? ?] ?] ?]. repeat apply conj; qc_lra.
Qed.

(** X25. [image] returns, and caches, the border expansion of the page's
    rendering at the resolution asked for (72 by default) of the crop
    rect: the table's rect itself without a margin, and otherwise the
    rect with the left and top margins subtracted from (xmin, ymin) and
    the right and bottom margins added to (xmax, ymax), 30 on every side
    for 'auto'; the cache records the resolution, the padding used and
    the margin used.  With margins that are not negative the crop rect
    contains the table's rect, so every word of the table's text
    positions intersects the crop rect. *)
Theorem image_crop_covers_table {Image : Type}
    (get_image : BasePage → num → Rect → Image)
    (expand : Image → Z * Z * Z * Z → Image)
    (self : CroppedTable) (dpi : option num)
    (padding : sides_arg Z) (margin : sides_arg num) :
  let dpi' := default (lit 72 1) dpi in
  let crop := crop_rect self margin in
  let pad := resolved_padding self dpi' padding in
  let img := expand (get_image (page self) dpi' crop) pad in
  CroppedTable_image get_image expand self dpi padding margin
  = (img, mkImageCache img dpi' (Some pad)
            match margin with
            | SidesNone => None
            | _ => Some (margin_sides margin)
            end)
  ∧ ((let '(m0, m1, m2, m3) := margin_sides margin in
      0 ≤ m0 ∧ 0 ≤ m1 ∧ 0 ≤ m2 ∧ 0 ≤ m3) →
     rect_contains crop (rect self) ∧
     ∀ w, w ∈ text_positions (Plain self) false false →
          is_intersecting (Rect_of_bbox (word_box w)) crop = true).
Proof.
  cbn zeta. split.
  - unfold CroppedTable_image, crop_rect, resolved_padding, longest_side_px.
    by destruct padding as [| |p], margin as [| |[[[m0 m1] m2] m3]], dpi as [dpi|].
  - intros Hm.
    assert (Hc : rect_contains (crop_rect self margin) (rect self)).
    { unfold rect_contains, crop_rect.
      destruct margin as [| |[[[m0 m1] m2] m3]];
        cbn [margin_sides xmin ymin xmax ymax] in *;
        destruct Hm as (? & ? & ? & ?); repeat apply conj; qc_lra. }
    split; [exact Hc|].
    intros w Hw. rewrite text_positions_page_space in Hw.
    apply elem_of_selected in Hw as [_ Hw]. rewrite xorb_false_r in Hw.
    by eapply is_intersecting_mono.
Qed.

Lemma image_crop_covers_table_witness :
  let get_image := λ (p : BasePage) (dpi : num) (r : Rect), (r, @nil (Z * Z * Z * Z)) in
  let expand := λ (img : Rect * list (Z * Z * Z * Z)) (pad : Z * Z * Z * Z),
                  (fst img, pad :: snd img) in
  let self := attrs sample_table in
  (let '(m0, m1, m2, m3) := margin_sides (@SidesAuto num) in
   0 ≤ m0 ∧ 0 ≤ m1 ∧ 0 ≤ m2 ∧ 0 ≤ m3) ∧
  fst (CroppedTable_image get_image expand self None SidesNone SidesAuto)
  = expand (get_image (page self) (lit 72 1) (crop_rect self SidesAuto)) (0, 0, 0, 0)%Z ∧
  rect_contains (crop_rect self SidesAuto) (rect self).
Proof.
  intros get_image expand self.
  assert (Hm : let '(m0, m1, m2, m3) := margin_sides (@SidesAuto num) in
               0 ≤ m0 ∧ 0 ≤ m1 ∧ 0 ≤ m2 ∧ 0 ≤ m3)
    by (repeat apply conj; vm_compute; discriminate).
  destruct (image_crop_covers_table get_image expand self None SidesNone SidesAuto)
    as [Himg Hcover].
  exact (conj Hm (conj (f_equal fst Himg) (proj1 (Hcover Hm)))).
Defined.

Lemma Qc_mult_nonneg (a b : num) : 0 ≤ a → 0 ≤ b → 0 ≤ a * b.
Proof.
  intros Ha Hb. rewrite <- (Qcmult_0_l b). by apply Qcmult_le_compat_r.
Qed.

Lemma longest_side_px_nonneg (self : CroppedTable) (dpi : num) :
  xmin (rect self) ≤ xmax (rect self) → 0 ≤ dpi →
  0 ≤ longest_side_px self dpi.
Proof.
  intros Hx Hdpi. unfold longest_side_px, py_max.
  assert (Hw : 0 ≤ width (rect self) * dpi / lit 72 1).
  { unfold Qcdiv.
    apply Qc_mult_nonneg;
      [apply Qc_mult_nonneg; [unfold width; qc_lra | done]
      | vm_compute; discriminate]. }
  case_bool_decide as Hlt; [|done].
  etrans; [exact Hw | by apply Qclt_le_weak].
Qed.

(** X26. With [padding='auto'], on a rect with xmin ≤ xmax and at a
    resolution that is not negative, [image] pads all four sides by the
    same whole number of pixels pad ≥ 0, the tenth of the rect's longer
    side in pixels rounded down: pad ≤ longest / 10 < pad + 1. *)
Theorem image_auto_padding {Image : Type}
    (get_image : BasePage → num → Rect → Image)
    (expand : Image → Z * Z * Z * Z → Image)
    (self : CroppedTable) (dpi : option num) (margin : sides_arg num) :
  xmin (rect self) ≤ xmax (rect self) →
  0 ≤ default (lit 72 1) dpi →
  ∃ pad : Z,
    _img_padding (snd (CroppedTable_image get_image expand self dpi SidesAuto margin))
    = Some (pad, pad, pad, pad) ∧
    (0 ≤ pad)%Z ∧
    Qc_of_Z pad ≤ longest_side_px self (default (lit 72 1) dpi) * lit 1 10 ∧
    longest_side_px self (default (lit 72 1) dpi) * lit 1 10 < Qc_of_Z (pad + 1).
Proof.
  intros Hx Hdpi.
  pose proof (longest_side_px_nonneg self _ Hx Hdpi) as Hlong.
  set (x := longest_side_px self (default (lit 72 1) dpi) * lit 1 10) in *.
  assert (Hxpos : 0 ≤ x).
  { apply Qc_mult_nonneg; [done | vm_compute; discriminate]. }
  exists (py_int x). repeat apply conj.
  - unfold CroppedTable_image. by destruct dpi, margin as [| |[[[? ?] ?] ?]].
  - unfold py_int. rewrite bool_decide_eq_true_2 by done.
    change 0%Z with (Qfloor 0). by apply Qfloor_resp_le.
  - unfold py_int. rewrite bool_decide_eq_true_2 by done. apply Qfloor_le.
  - unfold py_int. rewrite bool_decide_eq_true_2 by done. apply Qlt_floor.
Qed.

Lemma image_auto_padding_witness :
  let get_image := λ (p : BasePage) (dpi : num) (r : Rect), (r, @nil (Z * Z * Z * Z)) in
  let expand := λ (img : Rect * list (Z * Z * Z * Z)) (pad : Z * Z * Z * Z),
                  (fst img, pad :: snd img) in
  let self := attrs sample_table in
  xmin (rect self) ≤ xmax (rect self) ∧ 0 ≤ lit 144 1 ∧
  ∃ pad : Z,
    _img_padding (snd (CroppedTable_image get_image expand self (Some (lit 144 1))
                         SidesAuto SidesNone))
    = Some (pad, pad, pad, pad) ∧ (0 ≤ pad)%Z.
Proof.
  intros get_image expand self.
  assert (Hx : xmin (rect self) ≤ xmax (rect self)) by (vm_compute; discriminate).
  assert (Hdpi : 0 ≤ default (lit 72 1) (Some (lit 144 1))) by (vm_compute; discriminate).
  destruct (image_auto_padding get_image expand self (Some (lit 144 1)) SidesNone Hx Hdpi)
    as (pad & Hpad & Hpos & _).
  exact (conj Hx (conj Hdpi (ex_intro _ pad (conj Hpad Hpos)))).
Defined.

(** X27. A rotated table of angle 0 behaves as the plain table with the
    same attributes in every method: same text positions, same text,
    same predicted word height, and, called without extra keyword
    arguments, the same image and image cache. *)
Theorem angle_zero_is_plain {Image : Type}
    (get_image : BasePage → num → Rect → Image)
    (expand : Image → Z * Z * Z * Z → Image)
    (rotate : Image → num → Image)
    (t : CroppedTable) :
  let self := Rotated (mkRotatedCroppedTable t (lit 0 1)) in
  (∀ remove_table_offset outside,
     text_positions self remove_table_offset outside
     = text_positions (Plain t) remove_table_offset outside)
  ∧ text self = text (Plain t)
  ∧ (∀ threshold,
       fst (predicted_word_height self threshold)
       = fst (predicted_word_height (Plain t) threshold))
  ∧ (∀ dpi padding margin,
       RotatedCroppedTable_image get_image expand rotate
         (mkRotatedCroppedTable t (lit 0 1)) dpi padding margin []
       = Return (CroppedTable_image get_image expand t dpi padding margin)).
Proof.
  cbn zeta.
  assert (Htp : ∀ rto outside,
            text_positions (Rotated (mkRotatedCroppedTable t (lit 0 1))) rto outside
            = text_positions (Plain t) rto outside).
  { intros rto outside. cbn [text_positions].
    unfold RotatedCroppedTable_text_positions. cbn [angle super].
    by rewrite bool_decide_eq_true_2. }
  repeat apply conj.
  - exact Htp.
  - unfold text. by rewrite Htp.
  - intros threshold. unfold predicted_word_height. cbn [attrs super].
    rewrite Htp. destruct (_word_height t) as [h|]; [by destruct (float_ne_0 h)|].
    destruct (collect_word_heights _ _); [done|]. cbn zeta. by case_bool_decide.
  - intros dpi padding margin. unfold RotatedCroppedTable_image. cbn [angle super].
    destruct (CroppedTable_image _ _ _ _ _ _) as [img cache].
    by rewrite bool_decide_eq_false_2 by (by intros ?).
Qed.

(** ** Configuration *)

Lemma TableDetectorConfig_init_threshold (a b c : attr) :
  TableDetectorConfig_init a b c !! "detector_base_threshold" = None.
Proof. unfold TableDetectorConfig_init. destruct a, b, c; by simplify_map_eq. Qed.

(** X28. The constructor of the configuration has no parameter for the
    detection threshold: a configuration it builds reads the class value
    0.9 whatever its arguments, used as overrides of [extract] it leaves
    the detector's threshold as it is, and a [dict] configuration with
    the key 'detector_base_threshold' is refused with [TypeError]; the
    threshold changes only through an attribute assigned on the
    configuration, which then takes precedence over the detector's own;
    the old name 'confidence_score_threshold' can be neither read nor
    assigned. *)
Theorem threshold_only_by_assignment (cuda_is_available : bool)
    (a b c : attr) (base : gmap string attr) :
  config_getattr cuda_is_available (TableDetectorConfig_init a b c)
    "detector_base_threshold" = Attr (ANum (lit 9 10))
  ∧ extract_threshold cuda_is_available base (Some (TableDetectorConfig_init a b c))
    = extract_threshold cuda_is_available base None
  ∧ (∀ d, "detector_base_threshold" ∈ dom d →
          TableDetectorConfig_of_dict d = Raise TypeError)
  ∧ (∀ overrides v,
       config_setattr (TableDetectorConfig_init a b c) "detector_base_threshold" v
       = Assigned overrides →
       extract_threshold cuda_is_available base (Some overrides) = Attr v)
  ∧ (∀ self v,
       config_getattr cuda_is_available self "confidence_score_threshold"
       = RaiseDeprecationWarning ∧
       config_setattr self "confidence_score_threshold" v
       = AssignRaisesDeprecationWarning).
Proof.
  pose proof (TableDetectorConfig_init_threshold a b c) as Hinit.
  repeat apply conj.
  - unfold config_getattr. rewrite bool_decide_eq_false_2 by done.
    by rewrite Hinit.
  - unfold extract_threshold, extract_config, config_getattr.
    by rewrite lookup_union_r.
  - intros d Hd. unfold TableDetectorConfig_of_dict.
    rewrite bool_decide_eq_false_2; [done|]. intros Hsub.
    apply Hsub in Hd. rewrite !elem_of_union, !elem_of_singleton in Hd.
    by destruct Hd as [[?|?]|?].
  - intros overrides v. unfold config_setattr.
    rewrite bool_decide_eq_false_2 by done. intros [= <-].
    unfold extract_threshold, extract_config, config_getattr.
    rewrite bool_decide_eq_false_2 by done.
    by rewrite (lookup_union_Some_l _ _ _ v) by by simplify_map_eq.
  - by intros self v.
Qed.

Lemma threshold_only_by_assignment_witness :
  let overrides : gmap string attr := <["detector_base_threshold" := ANum (lit 8 10)]> ∅ in
  config_setattr (TableDetectorConfig_init ANone ANone ANone)
    "detector_base_threshold" (ANum (lit 8 10))
  = Assigned overrides ∧
  extract_threshold true (TableDetectorConfig_init ANone ANone (AStr "cpu"))
    (Some overrides)
  = Attr (ANum (lit 8 10)).
Proof.
  intros overrides.
  assert (Hset : config_setattr (TableDetectorConfig_init ANone ANone ANone)
                   "detector_base_threshold" (ANum (lit 8 10))
                 = Assigned overrides) by reflexivity.
  exact (conj Hset
    (proj1 (proj2 (proj2 (proj2
       (threshold_only_by_assignment true ANone ANone ANone
          (TableDetectorConfig_init ANone ANone (AStr "cpu"))))))
       overrides (ANum (lit 8 10)) Hset)).
Defined.
